(** * EEZ BB3 automation scripts: a shallow embedding and its properties

    Three scripts are embedded, one module each:
    - [Bb3Screenshot]: [take_screenshot_bb3.py], the raw-socket screenshot
      reader with its IEEE 488.2 definite-length block decode;
    - [Follower]: [DCP405_voltage_follower.py], the polling control loop
      with its handlers and the cleanup that follows it;
    - [Dmm6500]: [take_screenshot_dmm6500_githubversion.py], the browser
      driven screenshot tool.

    Python values that the scripts only pass around are kept as they are
    (byte strings as [list byte], integers as [Z]).  Python floats
    (measured voltages and currents, the wait of the browser tool) are
    [PyFloat.pyfloat]: a finite value, an infinity or NaN, with the
    comparisons and the rounded arithmetic of IEEE 754. *)

From Stdlib Require Import ZArith QArith Qround Qabs Qpower Qminmax.
From Stdlib Require Import List Bool Lia Lqa.
From Stdlib.Strings Require Import String Ascii Byte.
Import ListNotations.

Local Open Scope Z_scope.

(** ** Python sequence primitives shared by the scripts *)

Module Py.

(** [normal_bound n i]: a slice bound [i] as Python normalises it for a
    sequence of length [n] (step 1): a negative bound counts from the
    end, and the result is clamped into [0, n]. *)
Definition normal_bound (n i : Z) : Z :=
  if i <? 0 then Z.max 0 (i + n) else Z.min i n.

(** [slice l lo hi] is [l[lo:hi]]. *)
Definition slice {A : Type} (l : list A) (lo hi : Z) : list A :=
  let n := Z.of_nat (List.length l) in
  let a := normal_bound n lo in
  let b := normal_bound n hi in
  firstn (Z.to_nat (b - a)) (skipn (Z.to_nat a) l).

(** [index l i] is [l[i]]; [None] stands for [IndexError]. *)
Definition index {A : Type} (l : list A) (i : Z) : option A :=
  let n := Z.of_nat (List.length l) in
  let j := if i <? 0 then i + n else i in
  if (0 <=? j) && (j <? n) then nth_error l (Z.to_nat j) else None.

(** The bytes [Py_ISSPACE] accepts: TAB, LF, VT, FF, CR and the space. *)
Definition is_space (b : byte) : bool :=
  let n := Byte.to_N b in
  ((9 <=? n) && (n <=? 13) || (n =? 32))%N.

Definition digit_val (b : byte) : option Z :=
  let n := Byte.to_N b in
  if ((48 <=? n) && (n <=? 57))%N then Some (Z.of_N n - 48) else None.

Definition is_underscore (b : byte) : bool := (Byte.to_N b =? 95)%N.

Fixpoint skip_space (l : list byte) : list byte :=
  match l with
  | b :: tl => if is_space b then skip_space tl else l
  | [] => []
  end.

(** What the digit scanner saw last. *)
Inductive seen := SeenNothing | SeenDigit | SeenUnderscore.

(** The digit run of [int()] in base 10: digits, with single underscores
    allowed between two digits only.  Returns the value and the rest. *)
Fixpoint scan_digits (prev : seen) (acc : Z) (l : list byte)
  : option (Z * list byte) :=
  match l with
  | b :: tl =>
      match digit_val b with
      | Some v => scan_digits SeenDigit (10 * acc + v) tl
      | None =>
          if is_underscore b then
            match prev with
            | SeenDigit => scan_digits SeenUnderscore acc tl
            | _ => None
            end
          else
            match prev with
            | SeenDigit => Some (acc, l)
            | _ => None
            end
      end
  | [] =>
      match prev with
      | SeenDigit => Some (acc, [])
      | _ => None
      end
  end.

(** [int_of_bytes l] is [int(l)] for a bytes object [l]: optional
    surrounding white space, an optional sign, then the digit run, and
    nothing else.  [None] stands for [ValueError]. *)
Definition int_of_bytes (l : list byte) : option Z :=
  let l1 := skip_space l in
  let '(sign, l2) :=
    match l1 with
    | b :: tl =>
        if (Byte.to_N b =? 43)%N then (1, tl)
        else if (Byte.to_N b =? 45)%N then (-1, tl)
        else (1, l1)
    | [] => (1, l1)
    end in
  match scan_digits SeenNothing 0 l2 with
  | Some (v, rest) =>
      match skip_space rest with
      | [] => Some (sign * v)
      | _ :: _ => None
      end
  | None => None
  end.

(** [int(chr(b))] for one byte [b]: the text is a single character. *)
Definition int_of_chr (b : byte) : option Z := int_of_bytes [b].

Definition starts_with (marker : byte) (l : list byte) : bool :=
  match l with
  | b :: _ => Byte.eqb b marker
  | [] => false
  end.

Fixpoint ends_with (marker : byte) (l : list byte) : bool :=
  match l with
  | [] => false
  | [b] => Byte.eqb b marker
  | _ :: tl => ends_with marker tl
  end.

(** *** Facts about the primitives *)

Lemma int_of_chr_digit (b : byte) : int_of_chr b = digit_val b.
Proof. destruct b; reflexivity. Qed.

Lemma digit_val_range (b : byte) (d : Z) : digit_val b = Some d -> 0 <= d <= 9.
Proof. destruct b; simpl; intros H; inversion H; lia. Qed.

Lemma index_nth {A : Type} (l : list A) (i : Z) :
  0 <= i -> index l i = nth_error l (Z.to_nat i).
Proof.
  intros Hi. unfold index.
  destruct (i <? 0) eqn:Hneg; [apply Z.ltb_lt in Hneg; lia|].
  destruct (0 <=? i) eqn:H0; [|apply Z.leb_gt in H0; lia].
  destruct (i <? Z.of_nat (List.length l)) eqn:Hlt; simpl; [reflexivity|].
  apply Z.ltb_ge in Hlt. symmetry. apply nth_error_None. lia.
Qed.

Lemma slice_inside {A : Type} (l : list A) (lo hi : Z) :
  0 <= lo <= hi -> hi <= Z.of_nat (List.length l) ->
  slice l lo hi = firstn (Z.to_nat (hi - lo)) (skipn (Z.to_nat lo) l).
Proof.
  intros [Hlo Hhi] Hlen. unfold slice, normal_bound.
  destruct (lo <? 0) eqn:E1; [apply Z.ltb_lt in E1; lia|].
  destruct (hi <? 0) eqn:E2; [apply Z.ltb_lt in E2; lia|].
  rewrite !Z.min_l by lia. reflexivity.
Qed.

Lemma slice_beyond {A : Type} (l : list A) (lo hi : Z) :
  0 <= lo -> Z.of_nat (List.length l) <= hi ->
  slice l lo hi = skipn (Z.to_nat lo) l.
Proof.
  intros Hlo Hhi. unfold slice, normal_bound.
  destruct (lo <? 0) eqn:E1; [apply Z.ltb_lt in E1; lia|].
  destruct (hi <? 0) eqn:E2; [apply Z.ltb_lt in E2; lia|].
  rewrite (Z.min_r hi) by lia.
  destruct (Z.le_ge_cases lo (Z.of_nat (List.length l))).
  - rewrite Z.min_l by lia. apply firstn_all2. rewrite length_skipn. lia.
  - rewrite Z.min_r by lia. rewrite Nat2Z.id, skipn_all, firstn_nil.
    symmetry. apply skipn_all2. lia.
Qed.

Lemma starts_with_index (m : byte) (l : list byte) :
  starts_with m l = true <-> index l 0 = Some m.
Proof.
  rewrite index_nth by lia. destruct l as [|b tl]; simpl.
  - split; discriminate.
  - split; intros H.
    + apply Byte.byte_dec_bl in H. now subst.
    + inversion H. apply Byte.byte_dec_lb. reflexivity.
Qed.

End Py.

(** ** Python floats *)

Module PyFloat.

Local Open Scope Q_scope.

(** A float: a finite value, given by the rational it denotes, an
    infinity or NaN.  The two zeros are one value here: they compare
    equal, and the scripts tell them apart only in printed text, which is
    kept symbolic. *)
Inductive pyfloat :=
| Num (q : Q)
| Inf (negative : bool)
| NaN.

Definition Qltb (x y : Q) : bool := (Qnum x * QDen y <? Qnum y * QDen x)%Z.

(** [x < y]: false whenever an operand is NaN. *)
Definition flt (x y : pyfloat) : bool :=
  match x, y with
  | NaN, _ => false
  | _, NaN => false
  | Num a, Num b => Qltb a b
  | Num _, Inf negative => negb negative
  | Inf negative, Num _ => negative
  | Inf a, Inf b => a && negb b
  end.

(** [x > y]. *)
Definition fgt (x y : pyfloat) : bool := flt y x.

(** [-x], which is exact. *)
Definition fneg (x : pyfloat) : pyfloat :=
  match x with
  | Num q => Num (- q)
  | Inf negative => Inf (negb negative)
  | NaN => NaN
  end.

(** [x + y], the exact sum of two finite values rounded by [round] to the
    float format; nothing raises, an overflow gives an infinity. *)
Definition fadd (round : Q -> pyfloat) (x y : pyfloat) : pyfloat :=
  match x, y with
  | NaN, _ => NaN
  | _, NaN => NaN
  | Num a, Num b => round (a + b)
  | Num _, Inf b => Inf b
  | Inf a, Num _ => Inf a
  | Inf a, Inf b => if Bool.eqb a b then Inf a else NaN
  end.

(** [x - y]. *)
Definition fsub (round : Q -> pyfloat) (x y : pyfloat) : pyfloat :=
  fadd round x (fneg y).

(** [lo <= x <= hi] for a finite [x]. *)
Definition within (lo hi : Q) (x : pyfloat) : Prop :=
  match x with
  | Num q => lo <= q <= hi
  | _ => False
  end.

(** *** Rounding to a binary format

    Round to nearest, ties to even, for a format of [prec] significant
    bits whose normal numbers have exponents [emin .. emax]; the
    subnormal numbers share the spacing of the smallest normal ones, and
    a result of magnitude 2^(emax+1) or more is an infinity. *)

Definition pow2 (k : Z) : Q := Qpower 2 k.

(** floor (log2 q), for 0 < q. *)
Definition ilog2 (q : Q) : Z :=
  let e := (Z.log2 (Qnum q) - Z.log2 (Z.pos (Qden q)))%Z in
  if Qltb q (pow2 e) then (e - 1)%Z else e.

Definition round_half_even (x : Q) : Z :=
  let f := Qfloor x in
  let r := x - inject_Z f in
  if Qltb r (1 # 2) then f
  else if Qltb (1 # 2) r then (f + 1)%Z
  else if Z.even f then f else (f + 1)%Z.

Definition round_binary (prec emin emax : Z) (q : Q) : pyfloat :=
  if Qeq_bool q 0 then Num 0
  else
    let a := Qabs q in
    let e := Z.max (ilog2 a) emin in
    let ulp := pow2 (e - prec + 1) in
    let r := inject_Z (round_half_even (a / ulp)) * ulp in
    if Qle_bool (pow2 (emax + 1)) r then Inf (Qltb q 0)
    else Num (Qred (if Qltb q 0 then - r else r)).

(** The double precision of CPython and the single precision of small
    MicroPython ports. *)
Definition binary64 : Q -> pyfloat := round_binary 53 (-1022) 1023.
Definition binary32 : Q -> pyfloat := round_binary 24 (-126) 127.

Lemma Qltb_lt (x y : Q) : Qltb x y = true <-> x < y.
Proof. unfold Qltb, Qlt. apply Z.ltb_lt. Qed.

Lemma Qltb_ge (x y : Q) : Qltb x y = false <-> y <= x.
Proof. unfold Qltb, Qle. apply Z.ltb_ge. Qed.

(** No comparison with NaN holds. *)
Lemma flt_nan (x : pyfloat) : flt NaN x = false /\ flt x NaN = false.
Proof. split; [reflexivity|now destruct x]. Qed.

(** The rounding on known values: 0.1 + 0.2 is not 0.3 in double
    precision, 1.0 + 0.5 is 1.5 exactly, and 0.1 in single precision is
    13421773 / 2^27. *)
Example binary_sums :
  fadd binary64 (binary64 (1 # 10)) (binary64 (2 # 10))
  = Num (1351079888211149 # 4503599627370496)
  /\ binary64 (3 # 10) = Num (5404319552844595 # 18014398509481984)
  /\ fadd binary64 (Num 1) (Num (1 # 2)) = Num (3 # 2)
  /\ binary32 (1 # 10) = Num (13421773 # 134217728).
Proof. vm_compute. repeat split. Qed.

End PyFloat.

(** ** The raw-socket screenshot reader ([take_screenshot_bb3.py]) *)

Module Bb3Screenshot.

(** The exceptions [take_screenshot] can meet; every one of them is an
    [Exception] and ends in the function's [except] clause. *)
Inductive exn :=
| SocketError (msg : string)   (* OSError of connect, sendall or recv; socket.timeout *)
| IndexError                   (* data[1] on a one-byte response *)
| ValueError                   (* int() on a text that is no integer *)
| FileError (msg : string).    (* OSError of open *)

(** A printed line, with its formatted fields kept symbolic. *)
Inductive frag :=
| Lit (s : string)
| ShowInt (z : Z)              (* {BB3_PORT}, {len(img_data)} *)
| ShowExn (e : exn).           (* {e} *)

Definition line := list frag.

(** One answer of [sock.recv(4096)]: a chunk (the empty chunk when the
    peer has closed the connection) or an exception. *)
Inductive recv_result :=
| Chunk (bs : list byte)
| RecvRaises (e : exn).

(** What the outside world does to one run of the script. *)
Record world := {
  timestamp : string;             (* datetime.now().strftime("%Y%m%d_%H%M%S") *)
  connect_fails : option exn;
  sendall_fails : option exn;
  incoming : list recv_result;    (* the answers of the successive recv calls *)
  open_fails : option exn         (* open(filename, "wb") *)
}.

Record outcome := {
  returned : bool;
  console : list line;
  written : option (string * list byte)   (* file name and content *)
}.

Definition BB3_IP : string := "192.168.10.78".
Definition BB3_PORT : Z := 5025.

Definition marker : byte := "#"%byte.
Definition newline : byte := x0a.

(** Lines 37-45: collect chunks until one is empty or the data collected
    so far ends with a newline byte.  When the world has no further
    answer the blocked [recv] runs into the 10 s socket timeout. *)
Fixpoint read_response (answers : list recv_result) (data : list byte)
  : exn + list byte :=
  match answers with
  | [] => inl (SocketError "timed out")
  | RecvRaises e :: _ => inl e
  | Chunk chunk :: rest =>
      match chunk with
      | [] => inr data
      | _ :: _ =>
          let data := (data ++ chunk)%list in
          if Py.ends_with newline data then inr data
          else read_response rest data
      end
  end.

Inductive decoded :=
| InvalidFormat                 (* line 51: the response does not start with '#' *)
| Raised (e : exn)
| Payload (img_data : list byte).

(** Lines 51-60: the definite-length block decode. *)
Definition decode_block (data : list byte) : decoded :=
  if negb (Py.starts_with marker data) then InvalidFormat
  else
    match Py.index data 1 with
    | None => Raised IndexError
    | Some b1 =>
        match Py.int_of_chr b1 with
        | None => Raised ValueError
        | Some len_of_len =>
            match Py.int_of_bytes (Py.slice data 2 (2 + len_of_len)) with
            | None => Raised ValueError
            | Some data_len =>
                Payload (Py.slice data (2 + len_of_len)
                                  (2 + len_of_len + data_len))
            end
        end
    end.

Definition fails (out : list line) (e : exn) : outcome :=
  {| returned := false;
     console := (out ++ [[Lit "ERROR: "; ShowExn e]])%list;
     written := None |}.

Definition take_screenshot (filename : option string) (w : world) : outcome :=
  let filename :=
    match filename with
    | Some f => f
    | None => ("bb3_screenshot_" ++ timestamp w ++ ".jpg")%string
    end in
  let out :=
    [[Lit "Connecting to BB3 at "; Lit BB3_IP; Lit ":"; ShowInt BB3_PORT;
      Lit "..."]] in
  match connect_fails w with
  | Some e => fails out e
  | None =>
      let out := (out ++ [[Lit "Connected!"];
                          [Lit "Requesting screenshot..."]])%list in
      match sendall_fails w with
      | Some e => fails out e
      | None =>
          let out := (out ++ [[Lit "Reading image data..."]])%list in
          match read_response (incoming w) [] with
          | inl e => fails out e
          | inr data =>
              match decode_block data with
              | InvalidFormat =>
                  {| returned := false;
                     console :=
                       (out ++ [[Lit "ERROR: Invalid response format"]])%list;
                     written := None |}
              | Raised e => fails out e
              | Payload img_data =>
                  match open_fails w with
                  | Some e => fails out e
                  | None =>
                      {| returned := true;
                         console :=
                           (out ++
                            [[Lit "Screenshot saved to: "; Lit filename];
                             [Lit "Image size: ";
                              ShowInt (Z.of_nat (List.length img_data));
                              Lit " bytes"]])%list;
                         written := Some (filename, img_data) |}
                  end
              end
          end
      end
  end.

(** The [n] bytes of [data] from position [pos] on. *)
Definition bytes_at (data : list byte) (pos n : nat) : list byte :=
  firstn n (skipn pos data).

(** The bytes of an ASCII text. *)
Definition bytes (s : string) : list byte := list_byte_of_string s.

(** A world in which nothing fails and the answers of [recv] are [answers]. *)
Definition calm (answers : list recv_result) : world :=
  {| timestamp := "20251005_120000";
     connect_fails := None;
     sendall_fails := None;
     incoming := answers;
     open_fails := None |}.

(** The file name the run writes to. *)
Definition target_name (filename : option string) (w : world) : string :=
  match filename with
  | Some f => f
  | None => ("bb3_screenshot_" ++ timestamp w ++ ".jpg")%string
  end.

(** *** Properties of the decode *)

Lemma decode_block_header (data : list byte) (b1 : byte) (d L : Z) :
  Py.index data 0 = Some marker ->
  Py.index data 1 = Some b1 ->
  Py.digit_val b1 = Some d ->
  Py.int_of_bytes (bytes_at data 2 (Z.to_nat d)) = Some L ->
  2 + d <= Z.of_nat (List.length data) ->
  decode_block data = Payload (Py.slice data (2 + d) (2 + d + L)).
Proof.
  intros H0 H1 Hd HL Hlen. unfold decode_block.
  apply Py.starts_with_index in H0. rewrite H0. cbn [negb].
  rewrite H1, Py.int_of_chr_digit, Hd.
  pose proof (Py.digit_val_range _ _ Hd) as Hr.
  rewrite (Py.slice_inside data 2 (2 + d)) by lia.
  replace (2 + d - 2) with d by lia.
  change (Z.to_nat 2) with 2%nat. fold (bytes_at data 2 (Z.to_nat d)).
  now rewrite HL.
Qed.

Lemma bytes_at_length (data : list byte) (pos n : nat) :
  (pos + n <= List.length data)%nat -> List.length (bytes_at data pos n) = n.
Proof.
  intros H. unfold bytes_at. rewrite length_firstn, length_skipn. lia.
Qed.

(** An under-read is not detected: when the declared length reaches past
    the end of the buffer the decode returns whatever bytes are there. *)
Lemma decode_block_truncates (data : list byte) (b1 : byte) (d L : Z) :
  Py.index data 0 = Some marker ->
  Py.index data 1 = Some b1 ->
  Py.digit_val b1 = Some d ->
  Py.int_of_bytes (bytes_at data 2 (Z.to_nat d)) = Some L ->
  2 + d <= Z.of_nat (List.length data) ->
  Z.of_nat (List.length data) <= 2 + d + L ->
  decode_block data = Payload (skipn (Z.to_nat (2 + d)) data).
Proof.
  intros H0 H1 Hd HL Hlen Hshort.
  rewrite (decode_block_header data b1 d L) by assumption.
  pose proof (Py.digit_val_range _ _ Hd) as Hr.
  now rewrite Py.slice_beyond by lia.
Qed.

Lemma take_screenshot_decoded (filename : option string) (w : world)
      (data : list byte) :
  connect_fails w = None ->
  sendall_fails w = None ->
  read_response (incoming w) [] = inr data ->
  forall img_data, decode_block data = Payload img_data ->
  open_fails w = None ->
  returned (take_screenshot filename w) = true
  /\ written (take_screenshot filename w)
     = Some (target_name filename w, img_data).
Proof.
  intros Hc Hs Hr img Hd Ho. unfold take_screenshot.
  rewrite Hc, Hs, Hr, Hd, Ho. simpl. split; reflexivity.
Qed.

(** C1: when byte 0 of the buffer is the marker '#', byte 1 is an ASCII
    digit d, the d bytes from position 2 read as the decimal integer L (a
    length, so not negative) and the buffer holds at least 2+d+L bytes,
    the decode returns exactly the L bytes at positions [2+d, 2+d+L), and
    a run of [take_screenshot] that received this buffer writes exactly
    those bytes to its file.  In particular the buffer made of the text
    #3123 followed by any 123 bytes decodes to those 123 bytes. *)
Theorem decode_block_returns_payload :
  (forall (data : list byte) (b1 : byte) (d L : Z),
      Py.index data 0 = Some marker ->
      Py.index data 1 = Some b1 ->
      Py.digit_val b1 = Some d ->
      Py.int_of_bytes (bytes_at data 2 (Z.to_nat d)) = Some L ->
      0 <= L ->
      2 + d + L <= Z.of_nat (List.length data) ->
      let payload := bytes_at data (Z.to_nat (2 + d)) (Z.to_nat L) in
      decode_block data = Payload payload
      /\ List.length payload = Z.to_nat L
      /\ forall filename w,
           connect_fails w = None -> sendall_fails w = None ->
           open_fails w = None ->
           read_response (incoming w) [] = inr data ->
           returned (take_screenshot filename w) = true
           /\ written (take_screenshot filename w)
              = Some (target_name filename w, payload))
  /\ (forall payload : list byte,
         List.length payload = 123%nat ->
         decode_block (bytes "#3123" ++ payload) = Payload payload).
Proof.
  assert (General : forall data b1 d L,
      Py.index data 0 = Some marker ->
      Py.index data 1 = Some b1 ->
      Py.digit_val b1 = Some d ->
      Py.int_of_bytes (bytes_at data 2 (Z.to_nat d)) = Some L ->
      0 <= L ->
      2 + d + L <= Z.of_nat (List.length data) ->
      decode_block data
      = Payload (bytes_at data (Z.to_nat (2 + d)) (Z.to_nat L))).
  { intros data b1 d L H0 H1 Hd HL HL0 Hlen.
    pose proof (Py.digit_val_range _ _ Hd) as Hr.
    rewrite (decode_block_header data b1 d L) by (assumption || lia).
    rewrite Py.slice_inside by lia.
    replace (2 + d + L - (2 + d)) with L by lia. reflexivity. }
  split.
  - intros data b1 d L H0 H1 Hd HL HL0 Hlen payload.
    pose proof (Py.digit_val_range _ _ Hd) as Hr.
    assert (Hdec : decode_block data = Payload payload)
      by (apply (General data b1 d L); assumption).
    split; [exact Hdec|]. split.
    + apply bytes_at_length. lia.
    + intros filename w Hc Hs Ho Hread.
      now apply (take_screenshot_decoded filename w data).
  - intros payload Hlen.
    rewrite (General (bytes "#3123" ++ payload)%list "3"%byte 3 123).
    + change (Z.to_nat (2 + 3)) with 5%nat.
      change (Z.to_nat 123) with 123%nat.
      unfold bytes_at. simpl skipn. rewrite <- Hlen. now rewrite firstn_all.
    + now rewrite Py.index_nth by lia.
    + now rewrite Py.index_nth by lia.
    + reflexivity.
    + reflexivity.
    + lia.
    + rewrite length_app, Hlen. simpl. lia.
Qed.

(** The pieces of C1 at a concrete buffer: a five-byte payload behind the
    header #15, with a trailing newline that is not part of the payload. *)
Lemma decode_block_returns_payload_witness :
  decode_block (bytes "#15hello" ++ [newline]) = Payload (bytes "hello")
  /\ written (take_screenshot (Some "shot.jpg"%string)
                (calm [Chunk (bytes "#15hello" ++ [newline])]))
     = Some ("shot.jpg"%string, bytes "hello").
Proof.
  destruct decode_block_returns_payload as [General _].
  destruct (General (bytes "#15hello" ++ [newline])%list "1"%byte 1 5)
    as (Hdec & _ & Hrun); try reflexivity; try (simpl; lia).
  split; [exact Hdec|].
  apply (Hrun (Some "shot.jpg"%string) (calm [Chunk (bytes "#15hello" ++ [newline])]));
    reflexivity.
Defined.

(** C3, at the failing input: the payload of declared length 10 holds a
    newline byte and the first [recv] ends on it.  The reader stops there,
    the decode slices past the end of what was read, and the run reports
    success with a 4-byte file; no under-read is reported. *)
Theorem under_read_is_silent :
  let answers := [Chunk (bytes "#210ABC" ++ [newline]);
                  Chunk (bytes "DEFGHI" ++ [newline])] in
  read_response answers [] = inr (bytes "#210ABC" ++ [newline])%list
  /\ decode_block (bytes "#210ABC" ++ [newline])
     = Payload (bytes "ABC" ++ [newline])
  /\ returned (take_screenshot (Some "shot.jpg"%string) (calm answers)) = true
  /\ written (take_screenshot (Some "shot.jpg"%string) (calm answers))
     = Some ("shot.jpg"%string, (bytes "ABC" ++ [newline])%list).
Proof. repeat split. Qed.

(** C4: a buffer whose first byte is not the marker '#' (the empty buffer
    included) is refused by the decode as an invalid format; the run that
    received it prints the invalid-response error as its last line,
    returns False and writes no file. *)
Theorem decode_block_rejects_bad_marker :
  (forall data : list byte,
      Py.index data 0 <> Some marker -> decode_block data = InvalidFormat)
  /\ (forall filename w data,
         connect_fails w = None ->
         sendall_fails w = None ->
         read_response (incoming w) [] = inr data ->
         Py.index data 0 <> Some marker ->
         returned (take_screenshot filename w) = false
         /\ written (take_screenshot filename w) = None
         /\ last (console (take_screenshot filename w)) []
            = [Lit "ERROR: Invalid response format"]).
Proof.
  assert (Dec : forall data : list byte,
             Py.index data 0 <> Some marker -> decode_block data = InvalidFormat).
  { intros data Hm. unfold decode_block.
    destruct (Py.starts_with marker data) eqn:E; [|reflexivity].
    apply Py.starts_with_index in E. contradiction. }
  split; [exact Dec|].
  intros filename w data Hc Hs Hr Hm. unfold take_screenshot.
  rewrite Hc, Hs, Hr, (Dec data Hm). simpl. repeat split.
Qed.

(** C4 at a concrete response: a plain error text instead of a block. *)
Lemma decode_block_rejects_bad_marker_witness :
  decode_block (bytes "**ERROR: -113") = InvalidFormat
  /\ written (take_screenshot None (calm [Chunk (bytes "**ERROR: -113" ++ [newline])]))
     = None.
Proof.
  destruct decode_block_rejects_bad_marker as [Dec Run]. split.
  - apply Dec. discriminate.
  - apply (Run None (calm [Chunk (bytes "**ERROR: -113" ++ [newline])])
               (bytes "**ERROR: -113" ++ [newline])%list);
      try reflexivity. discriminate.
Defined.

(** *** Further properties of the reader and the decode *)

(** The bytes of an answer of [recv]. *)
Definition chunk_bytes (a : recv_result) : list byte :=
  match a with
  | Chunk bs => bs
  | RecvRaises _ => []
  end.

(** [img] is a run of consecutive bytes of [data] that starts at [pos]. *)
Definition segment_at (data img : list byte) (pos : nat) : Prop :=
  exists pre post,
    data = (pre ++ img ++ post)%list /\ List.length pre = pos.

(** X1: what the read loop hands back is what was given to it followed by
    the chunks of a leading run of the answers, nothing else; and it stops
    there because the data ends in a newline byte or because the next
    answer was the empty chunk of a closed connection. *)
Theorem read_response_collects (answers : list recv_result)
        (acc data : list byte) :
  read_response answers acc = inr data ->
  exists n,
    (n <= List.length answers)%nat
    /\ data = (acc ++ List.concat (map chunk_bytes (firstn n answers)))%list
    /\ (Py.ends_with newline data = true
        \/ nth_error answers n = Some (Chunk [])).
Proof.
  revert acc. induction answers as [|a rest IH]; intros acc H; simpl in H.
  - discriminate.
  - destruct a as [chunk|e]; [|discriminate].
    destruct chunk as [|b chunk].
    + inversion H; subst. exists 0%nat. simpl. rewrite app_nil_r.
      repeat split; [lia|now right].
    + destruct (Py.ends_with newline (acc ++ b :: chunk)) eqn:Hend.
      * inversion H; subst. exists 1%nat. simpl. rewrite app_nil_r.
        repeat split; [lia|now left].
      * destruct (IH _ H) as (n & Hn & Hdata & Hstop).
        exists (S n). simpl.
        split; [lia|]. split; [|exact Hstop].
        rewrite Hdata, <- app_assoc. reflexivity.
Qed.

Lemma read_response_collects_witness :
  exists n,
    (n <= 2)%nat
    /\ (bytes "#210ABC" ++ [newline])%list
       = ([] ++ List.concat (map chunk_bytes
                          (firstn n [Chunk (bytes "#210ABC" ++ [newline]);
                                     Chunk (bytes "DEFGHI" ++ [newline])])))%list
    /\ (Py.ends_with newline (bytes "#210ABC" ++ [newline]) = true
        \/ nth_error [Chunk (bytes "#210ABC" ++ [newline]);
                      Chunk (bytes "DEFGHI" ++ [newline])] n
           = Some (Chunk [])).
Proof.
  apply (read_response_collects
           [Chunk (bytes "#210ABC" ++ [newline]);
            Chunk (bytes "DEFGHI" ++ [newline])] []).
  reflexivity.
Defined.

(** X2: once the read loop has ended with some data, nothing the
    instrument sends afterwards is looked at: the same data comes back
    whatever answers follow. *)
Theorem read_response_ignores_the_rest (answers more : list recv_result)
        (acc data : list byte) :
  read_response answers acc = inr data ->
  read_response (answers ++ more) acc = inr data.
Proof.
  revert acc. induction answers as [|a rest IH]; intros acc H; simpl in *.
  - discriminate.
  - destruct a as [chunk|e]; [|discriminate].
    destruct chunk as [|b chunk]; [exact H|].
    destruct (Py.ends_with newline (acc ++ b :: chunk)); [exact H|].
    now apply IH.
Qed.

Lemma read_response_ignores_the_rest_witness :
  read_response ([Chunk (bytes "#210ABC" ++ [newline])]
                 ++ [Chunk (bytes "DEFGHI" ++ [newline])]) []
  = inr (bytes "#210ABC" ++ [newline])%list.
Proof.
  apply (read_response_ignores_the_rest
           [Chunk (bytes "#210ABC" ++ [newline])]
           [Chunk (bytes "DEFGHI" ++ [newline])] []).
  reflexivity.
Defined.


(** X4: the malformed headers.  A response that is the marker alone ends
    in IndexError; a second byte that is no ASCII digit, or the digit 0
    (an empty length field), ends in ValueError; each of them makes the
    run return False without a file. *)
Theorem decode_block_malformed_header :
  decode_block [marker] = Raised IndexError
  /\ (forall b rest, Py.digit_val b = None ->
        decode_block (marker :: b :: rest) = Raised ValueError)
  /\ (forall rest, decode_block (marker :: "0"%byte :: rest) = Raised ValueError)
  /\ (forall filename w data e,
         connect_fails w = None -> sendall_fails w = None ->
         read_response (incoming w) [] = inr data ->
         decode_block data = Raised e ->
         returned (take_screenshot filename w) = false
         /\ written (take_screenshot filename w) = None).
Proof.
  split; [reflexivity|]. split; [|split].
  - intros b rest Hb. unfold decode_block.
    change (Py.starts_with marker (marker :: b :: rest)) with true.
    cbn [negb]. rewrite Py.index_nth by lia.
    change (nth_error (marker :: b :: rest) (Z.to_nat 1)) with (Some b).
    cbv beta iota. now rewrite Py.int_of_chr_digit, Hb.
  - intros rest. unfold decode_block.
    change (Py.starts_with marker (marker :: "0"%byte :: rest)) with true.
    cbn [negb]. rewrite Py.index_nth by lia.
    change (nth_error (marker :: "0"%byte :: rest) (Z.to_nat 1))
      with (Some "0"%byte).
    cbv beta iota. change (Py.int_of_chr "0"%byte) with (Some 0%Z).
    cbv beta iota.
    rewrite (Py.slice_inside (marker :: "0"%byte :: rest) 2 (2 + 0)).
    + reflexivity.
    + lia.
    + simpl List.length. lia.
  - intros filename w data e Hc Hs Hr Hd. unfold take_screenshot.
    rewrite Hc, Hs, Hr, Hd. split; reflexivity.
Qed.

Lemma slice_segment {A : Type} (l : list A) (lo hi : Z) :
  0 <= lo ->
  exists pre post,
    l = (pre ++ Py.slice l lo hi ++ post)%list
    /\ List.length pre = Nat.min (Z.to_nat lo) (List.length l).
Proof.
  intros Hlo. unfold Py.slice, Py.normal_bound.
  destruct (lo <? 0) eqn:E; [apply Z.ltb_lt in E; lia|].
  set (a := Z.to_nat (Z.min lo (Z.of_nat (List.length l)))).
  match goal with
  | |- context [firstn ?k (skipn a l)] => set (n := k)
  end.
  exists (firstn a l), (skipn n (skipn a l)). split.
  - now rewrite (firstn_skipn n), (firstn_skipn a).
  - rewrite length_firstn. subst a. lia.
Qed.

Lemma decode_block_payload_inv (data img_data : list byte) :
  decode_block data = Payload img_data ->
  exists b1 d L,
    Py.index data 0 = Some marker
    /\ Py.index data 1 = Some b1
    /\ Py.digit_val b1 = Some d
    /\ Py.int_of_bytes (Py.slice data 2 (2 + d)) = Some L
    /\ img_data = Py.slice data (2 + d) (2 + d + L).
Proof.
  unfold decode_block.
  destruct (Py.starts_with marker data) eqn:Hm; [|discriminate].
  cbn [negb]. destruct (Py.index data 1) as [b1|] eqn:H1; [|discriminate].
  rewrite Py.int_of_chr_digit.
  destruct (Py.digit_val b1) as [d|] eqn:Hd; [|discriminate].
  destruct (Py.int_of_bytes (Py.slice data 2 (2 + d))) as [L|] eqn:HL;
    [|discriminate].
  intros H. inversion H. exists b1, d, L.
  apply Py.starts_with_index in Hm. auto.
Qed.

(** X5: whatever the header says, a decoded payload is a run of
    consecutive bytes of the response that starts behind the marker and
    the digit, and when the length field is not negative it is never
    longer than the declared length. *)
Theorem decode_block_payload_is_segment (data img_data : list byte) :
  decode_block data = Payload img_data ->
  (exists pos, (2 <= pos)%nat /\ segment_at data img_data pos)
  /\ forall b1 d L,
       Py.index data 1 = Some b1 -> Py.digit_val b1 = Some d ->
       Py.int_of_bytes (Py.slice data 2 (2 + d)) = Some L ->
       0 <= L ->
       Z.of_nat (List.length img_data) <= L.
Proof.
  intros Hdec.
  destruct (decode_block_payload_inv data img_data Hdec)
    as (b1 & d & L & H0 & H1 & Hd & HL & Himg).
  pose proof (Py.digit_val_range _ _ Hd) as Hr.
  assert (Hlen : (2 <= List.length data)%nat).
  { rewrite Py.index_nth in H1 by lia.
    assert (Hsome : nth_error data (Z.to_nat 1) <> None) by congruence.
    apply nth_error_Some in Hsome. change (Z.to_nat 1) with 1%nat in Hsome.
    lia. }
  split.
  - destruct (slice_segment data (2 + d) (2 + d + L)) as (pre & post & Hsplit & Hpre);
      [lia|].
    exists (List.length pre). split; [lia|].
    exists pre, post. subst img_data. auto.
  - intros b1' d' L' H1' Hd' HL' HL0.
    assert (b1' = b1) by congruence. subst b1'.
    assert (d' = d) by congruence. subst d'.
    assert (L' = L) by congruence. subst L'.
    subst img_data. unfold Py.slice.
    rewrite length_firstn.
    unfold Py.normal_bound.
    destruct (2 + d <? 0) eqn:E1; [apply Z.ltb_lt in E1; lia|].
    destruct (2 + d + L <? 0) eqn:E2; [apply Z.ltb_lt in E2; lia|].
    lia.
Qed.

Lemma decode_block_payload_is_segment_witness :
  exists pos, (2 <= pos)%nat
              /\ segment_at (bytes "#15hello" ++ [newline]) (bytes "hello") pos.
Proof.
  apply (decode_block_payload_is_segment
           (bytes "#15hello" ++ [newline])%list (bytes "hello")).
  reflexivity.
Defined.

(** X6: a length field with a minus sign is accepted.  When the stop
    index 2+d+L is negative Python counts it from the end of the
    response, so the payload is everything behind the header but the last
    -(2+d+L) bytes. *)
Theorem decode_block_negative_length (data : list byte) (b1 : byte) (d L : Z) :
  Py.index data 0 = Some marker ->
  Py.index data 1 = Some b1 ->
  Py.digit_val b1 = Some d ->
  Py.int_of_bytes (bytes_at data 2 (Z.to_nat d)) = Some L ->
  2 + d + L < 0 ->
  2 + d <= Z.of_nat (List.length data) + (2 + d + L) ->
  decode_block data
  = Payload (bytes_at data (Z.to_nat (2 + d))
                      (Z.to_nat (Z.of_nat (List.length data) + L))).
Proof.
  intros H0 H1 Hd HL Hneg Hroom.
  pose proof (Py.digit_val_range _ _ Hd) as Hr.
  rewrite (decode_block_header data b1 d L) by (assumption || lia).
  unfold Py.slice, Py.normal_bound, bytes_at.
  destruct (2 + d <? 0) eqn:E1; [apply Z.ltb_lt in E1; lia|].
  destruct (2 + d + L <? 0) eqn:E2; [|apply Z.ltb_ge in E2; lia].
  rewrite Z.min_l by lia. rewrite Z.max_r by lia.
  f_equal. f_equal. lia.
Qed.

Lemma decode_block_negative_length_witness :
  decode_block (bytes "#2-5ABCDEF") = Payload (bytes "ABCDE").
Proof.
  apply (decode_block_negative_length (bytes "#2-5ABCDEF") "2"%byte 2 (-5));
    try reflexivity.
  - vm_compute. discriminate.
Defined.

End Bb3Screenshot.

(** ** The voltage follower ([DCP405_voltage_follower.py]) *)

Module Follower.

Import PyFloat.

Local Open Scope Q_scope.

(** *** Values, texts and the trace of a run *)

(** What [scpi()] hands back: [None], a text or a number. *)
Inductive value :=
| VNone
| VStr (s : string)
| VInt (z : Z)
| VFloat (x : pyfloat).

Inductive exn :=
| DeviceError (msg : string)    (* raised by scpi, getU, getI or setU *)
| ValueError (msg : string).    (* raised by float() *)

Inductive res (A : Type) :=
| Ok (a : A)
| Raise (e : exn).

Arguments Ok {A} a.
Arguments Raise {A} e.

(** A command or a printed text: literal pieces and formatted values, the
    formatting itself ([str], the format specifications) kept symbolic. *)
Inductive frag :=
| Lit (s : string)
| Quoted (s : string)           (* s between double quotes *)
| ShowInt (z : Z)               (* str(z) *)
| ShowFloat (x : pyfloat)       (* str(x) *)
| Fixed3 (x : pyfloat)          (* "{:.3f}".format(x) *)
| SignedFixed3 (x : pyfloat)    (* "{:+.3f}".format(x) *)
| ShowValue (v : value)         (* str(v) *)
| ShowExn (e : exn).            (* the exception, as print shows it *)

Definition text := list frag.

(** Everything the script does to the outside, in order. *)
Inductive event :=
| EScpi (cmd : text) (r : res value)
| EGetU (ch : Z) (r : res pyfloat)
| EGetI (ch : Z) (r : res pyfloat)
| ESetU (ch : Z) (v : pyfloat) (r : res unit)
| ETicks (now : Z)
| EPrint (args : list text).

(** The chassis and the MicroPython runtime around the script: how the
    instrument answers each call from its own state, the millisecond
    counter, [float()] on a text, and the rounding of the port's float
    format (single or double precision, as the firmware was built). *)
Record platform (D : Type) := {
  scpi_reply : D -> text -> res value * D;
  getU_reply : D -> Z -> res pyfloat * D;
  getI_reply : D -> Z -> res pyfloat * D;
  setU_reply : D -> Z -> pyfloat -> res unit * D;
  ticks_reply : D -> Z * D;
  float_of_str : string -> option pyfloat;
  round : Q -> pyfloat
}.

Arguments scpi_reply {D}.
Arguments getU_reply {D}.
Arguments getI_reply {D}.
Arguments setU_reply {D}.
Arguments ticks_reply {D}.
Arguments float_of_str {D}.
Arguments round {D}.

(** *** [utime] tick arithmetic

    Tick values live in [0, TICKS_PERIOD) and wrap around; the period is
    the one of MicroPython on a 32-bit port. *)
Definition TICKS_PERIOD : Z := (2 ^ 30)%Z.

Definition ticks_add (ticks delta : Z) : Z := ((ticks + delta) mod TICKS_PERIOD)%Z.

Definition ticks_diff (ticks1 ticks2 : Z) : Z :=
  ((ticks1 - ticks2 + TICKS_PERIOD / 2) mod TICKS_PERIOD - TICKS_PERIOD / 2)%Z.

(** *** The output target *)

(** Lines 228-234: the output target for source reading [ch1_v], in the
    float arithmetic that rounds with [round]. *)
Definition follower_target (round : Q -> pyfloat)
           (ch1_v voltage_offset : pyfloat) : pyfloat :=
  let target_voltage_set := fadd round ch1_v voltage_offset in
  if flt target_voltage_set (Num 0) then Num 0
  else if fgt target_voltage_set (Num 40) then Num 40
  else target_voltage_set.

(** [clamp lo hi x], the specification's clamp, on numbers. *)
Definition clamp (lo hi x : Q) : Q := Qmax lo (Qmin hi x).

(** [v == "name"] for a value returned by [scpi()]. *)
Definition is_text (v : value) (name : string) : bool :=
  match v with
  | VStr s => String.eqb s name
  | _ => false
  end.

Definition is_none (v : value) : bool :=
  match v with
  | VNone => true
  | _ => false
  end.

(** [model and "DCP405" in str(model)]. *)
Definition names_dcp405 (model : value) : bool :=
  match model with
  | VStr s =>
      negb (String.eqb s "")
      && match String.index 0 "DCP405" s with Some _ => true | None => false end
  | _ => false
  end.

Inductive flow := Next | Break.

Section Script.

Variable D : Type.
Variable P : platform D.

(** The session: the script's globals, the instrument and the trace. *)
Record state := mkState {
  running : bool;
  voltage_offset : pyfloat;
  current_limit : pyfloat;
  target_voltage_set : pyfloat;
  loop_count : Z;
  t : Z;
  device : D;
  trace : list event
}.

Definition set_running (b : bool) (s : state) : state :=
  mkState b (voltage_offset s) (current_limit s) (target_voltage_set s)
          (loop_count s) (t s) (device s) (trace s).

Definition set_voltage_offset (q : pyfloat) (s : state) : state :=
  mkState (running s) q (current_limit s) (target_voltage_set s)
          (loop_count s) (t s) (device s) (trace s).

Definition set_current_limit (q : pyfloat) (s : state) : state :=
  mkState (running s) (voltage_offset s) q (target_voltage_set s)
          (loop_count s) (t s) (device s) (trace s).

Definition set_target_voltage_set (q : pyfloat) (s : state) : state :=
  mkState (running s) (voltage_offset s) (current_limit s) q
          (loop_count s) (t s) (device s) (trace s).

Definition set_loop_count (n : Z) (s : state) : state :=
  mkState (running s) (voltage_offset s) (current_limit s) (target_voltage_set s)
          n (t s) (device s) (trace s).

Definition set_t (n : Z) (s : state) : state :=
  mkState (running s) (voltage_offset s) (current_limit s) (target_voltage_set s)
          (loop_count s) n (device s) (trace s).

(** One more event, with the instrument's next state. *)
Definition record (d : D) (ev : event) (s : state) : state :=
  mkState (running s) (voltage_offset s) (current_limit s) (target_voltage_set s)
          (loop_count s) (t s) d (trace s ++ [ev]).

(** *** The monad of the script: state, and exceptions that keep it *)

Definition M (A : Type) : Type := state -> res A * state.

Definition ret {A : Type} (a : A) : M A := fun s => (Ok a, s).

Definition bind {A B : Type} (m : M A) (k : A -> M B) : M B :=
  fun s =>
    match m s with
    | (Ok a, s') => k a s'
    | (Raise e, s') => (Raise e, s')
    end.

Definition raise {A : Type} (e : exn) : M A := fun s => (Raise e, s).

(** [try: m  except Exception as e: h e]. *)
Definition try_except {A : Type} (m : M A) (h : exn -> M A) : M A :=
  fun s =>
    match m s with
    | (Ok a, s') => (Ok a, s')
    | (Raise e, s') => h e s'
    end.

Definition gets {A : Type} (f : state -> A) : M A := fun s => (Ok (f s), s).

Definition modify (f : state -> state) : M unit := fun s => (Ok tt, f s).

Definition print (args : list text) : M unit :=
  fun s => (Ok tt, record (device s) (EPrint args) s).

Definition scpi (cmd : text) : M value :=
  fun s =>
    let (r, d) := scpi_reply P (device s) cmd in
    (r, record d (EScpi cmd r) s).

Definition getU (ch : Z) : M pyfloat :=
  fun s =>
    let (r, d) := getU_reply P (device s) ch in
    (r, record d (EGetU ch r) s).

Definition getI (ch : Z) : M pyfloat :=
  fun s =>
    let (r, d) := getI_reply P (device s) ch in
    (r, record d (EGetI ch r) s).

Definition setU (ch : Z) (v : pyfloat) : M unit :=
  fun s =>
    let (r, d) := setU_reply P (device s) ch v in
    (r, record d (ESetU ch v r) s).

Definition ticks_ms : M Z :=
  fun s =>
    let (now, d) := ticks_reply P (device s) in
    (Ok now, record d (ETicks now) s).

(** [float(v)]; an integer is converted by the port's rounding. *)
Definition float_value (v : value) : res pyfloat :=
  match v with
  | VFloat x => Ok x
  | VInt z => Ok (round P (inject_Z z))
  | VStr s =>
      match float_of_str P s with
      | Some x => Ok x
      | None => Raise (ValueError "could not convert string to float")
      end
  | VNone => Raise (ValueError "float() argument must be a string or a number")
  end.

Definition float (v : value) : M pyfloat := fun s => (float_value v, s).

Notation "x <- m ;; k" := (bind m (fun x => k))
  (at level 61, m at next level, right associativity).
Notation "m ;; k" := (bind m (fun _ => k))
  (at level 61, right associativity).

(** *** The script's functions *)

Definition dial_data (name kind : string) (shown : text) : text :=
  [Lit "DISP:DIAL:DATA "; Quoted name; Lit kind] ++ shown.

(** Lines 45-71. *)
Definition check_dcp405_modules : M bool :=
  try_except
    (scpi [Lit "INST:NSEL 1"];;
     ch1_model <- scpi [Lit "SYST:CHAN:MODel?"];;
     scpi [Lit "INST:NSEL 2"];;
     ch2_model <- scpi [Lit "SYST:CHAN:MODel?"];;
     print [[Lit "Ch1 model:"]; [ShowValue ch1_model]];;
     print [[Lit "Ch2 model:"]; [ShowValue ch2_model]];;
     if names_dcp405 ch1_model && names_dcp405 ch2_model then
       print [[Lit "Module check: PASSED - Both channels are DCP405"]];;
       ret true
     else
       print [[Lit "Module check: FAILED"]];;
       print [[Lit "This script requires DCP405 modules in both Ch1 and Ch2"]];;
       print [[Lit "Ch1: "; ShowValue ch1_model]];;
       print [[Lit "Ch2: "; ShowValue ch2_model]];;
       ret false)
    (fun e => print [[Lit "Module check ERROR:"]; [ShowExn e]];; ret false).

(** Lines 73-103: on any exception the readings are replaced by 0, 0, 0. *)
Definition updateDisplay : M (pyfloat * pyfloat * pyfloat) :=
  try_except
    (scpi [Lit "INST:NSEL 1"];;
     ch1_voltage <- getU 1;;
     ch1_current <- getI 1;;
     scpi [Lit "INST:NSEL 2"];;
     ch2_voltage <- getU 2;;
     ch2_current <- getI 2;;
     scpi (dial_data "source_voltage" ",FLOAT,VOLT," [ShowFloat ch1_voltage]);;
     scpi (dial_data "target_voltage" ",FLOAT,VOLT," [ShowFloat ch2_voltage]);;
     scpi (dial_data "target_current" ",FLOAT,AMPER," [ShowFloat ch2_current]);;
     offset <- gets voltage_offset;;
     scpi (dial_data "voltage_offset" ",FLOAT,VOLT," [Fixed3 offset]);;
     limit <- gets current_limit;;
     scpi (dial_data "current_limit" ",FLOAT,AMPER," [Fixed3 limit]);;
     ret (ch1_voltage, ch2_voltage, ch2_current))
    (fun e => print [[Lit "Display update ERROR:"]; [ShowExn e]];;
              ret (Num 0, Num 0, Num 0)).

(** Lines 105-116. *)
Definition startControl : M unit :=
  print [[Lit "START button pressed"]];;
  modify (set_running true);;
  scpi (dial_data "status" ",STRING," [Quoted "RUNNING"]);;
  scpi [Lit "INST:NSEL 2"];;
  limit <- gets current_limit;;
  scpi [Lit "CURR "; ShowFloat limit];;
  scpi [Lit "OUTP 1"];;
  print [[Lit "Output enabled"]].

(** Lines 118-128. *)
Definition stopControl : M unit :=
  print [[Lit "STOP button pressed"]];;
  modify (set_running false);;
  scpi (dial_data "status" ",STRING," [Quoted "STOPPED"]);;
  scpi [Lit "INST:NSEL 2"];;
  scpi [Lit "OUTP 0"];;
  print [[Lit "Output disabled"]].

(** The prompt of line 145. *)
Definition offset_prompt (min_offset max_offset shown : pyfloat) : text :=
  [Lit "DISP:INPUT? "; Quoted "Voltage Offset"; Lit ",NUMBER,VOLT,";
   ShowFloat min_offset; Lit ","; ShowFloat max_offset; Lit ",";
   ShowFloat shown].

(** Lines 130-153. *)
Definition configVoltageOffset : M unit :=
  print [[Lit "Config Voltage Offset"]];;
  try_except
    (ch1_v <- getU 1;;
     let min_offset := fneg ch1_v in
     let max_offset := fsub (round P) (Num 40) ch1_v in
     shown <- gets voltage_offset;;
     value <- scpi (offset_prompt min_offset max_offset shown);;
     if is_none value then ret tt
     else
       offset <- float value;;
       modify (set_voltage_offset offset);;
       print [[Lit "Offset: "; SignedFixed3 offset; Lit " V (Range: ";
               Fixed3 min_offset; Lit " to "; Fixed3 max_offset; Lit " V)"]])
    (fun e => print [[Lit "Offset config ERROR:"]; [ShowExn e]]).

Definition limit_prompt (shown : pyfloat) : text :=
  [Lit "DISP:INPUT? "; Quoted "Current Limit"; Lit ",NUMBER,AMPER,0.05,5,";
   ShowFloat shown].

(** Lines 155-164. *)
Definition configCurrentLimit : M unit :=
  print [[Lit "Config Current Limit"]];;
  shown <- gets current_limit;;
  value <- scpi (limit_prompt shown);;
  if is_none value then ret tt
  else
    limit <- float value;;
    modify (set_current_limit limit);;
    scpi [Lit "INST:NSEL 2"];;
    scpi [Lit "CURR "; ShowFloat limit];;
    print [[Lit "Current limit set to:"]; [ShowFloat limit]].

(** *** The main loop *)

(** The action query of line 209. *)
Definition action_query (timeout_ms : Z) : text :=
  [Lit "DISP:DIALog:ACTIon? "; ShowInt timeout_ms; Lit "ms"].

(** Lines 226-238. *)
Definition follow (ch1_v : pyfloat) : M unit :=
  on <- gets running;;
  if on then
    offset <- gets voltage_offset;;
    let target := follower_target (round P) ch1_v offset in
    modify (set_target_voltage_set target);;
    scpi [Lit "INST:NSEL 2"];;
    setU 2 target
  else ret tt.

(** Lines 240-246. *)
Definition report (ch1_v ch2_v ch2_i : pyfloat) : M unit :=
  modify (fun s => set_loop_count (loop_count s + 1)%Z s);;
  count <- gets loop_count;;
  if (10 <=? count)%Z then
    on <- gets running;;
    offset <- gets voltage_offset;;
    print [[Lit (if on then "RUNNING" else "READY"); Lit " | Offset: ";
            SignedFixed3 offset; Lit "V | Ch1: "; Fixed3 ch1_v;
            Lit "V | Ch2: "; Fixed3 ch2_v; Lit "V "; Fixed3 ch2_i; Lit "A"]];;
    modify (set_loop_count 0%Z)
  else ret tt.

(** Lines 223-249, what follows the dispatch unless it was a close. *)
Definition refresh (t_next : Z) : M flow :=
  readings <- updateDisplay;;
  let '(ch1_v, ch2_v, ch2_i) := readings in
  follow ch1_v;;
  report ch1_v ch2_v ch2_i;;
  modify (set_t t_next);;
  ret Next.

(** Lines 211-249: the dispatch on the action and what follows it. *)
Definition dispatch (action : value) (t_next : Z) : M flow :=
  if is_text action "start_control" then startControl;; refresh t_next
  else if is_text action "stop_control" then stopControl;; refresh t_next
  else if is_text action "config_voltage_offset" then
    configVoltageOffset;; refresh t_next
  else if is_text action "config_current_limit" then
    configCurrentLimit;; refresh t_next
  else if is_text action "close_dialog" then
    print [[Lit "Close requested by user"]];; ret Break
  else refresh t_next.

(** Lines 204-249: the body of the loop's [try]. *)
Definition loop_body : M flow :=
  t0 <- gets t;;
  let t_next := ticks_add t0 500 in
  now <- ticks_ms;;
  let timeout_ms := Z.max 10 (ticks_diff t_next now) in
  action <- scpi (action_query timeout_ms);;
  dispatch action t_next.

Definition loop_error (e : exn) : event :=
  EPrint [[Lit "Loop ERROR:"]; [ShowExn e]].

(** One turn of [while True]: the [try] body and the loop's [except]. *)
Definition loop_iteration (s : state) : flow * state :=
  match loop_body s with
  | (Ok f, s') => (f, s')
  | (Raise e, s') => (Break, record (device s') (loop_error e) s')
  end.

(** At most [fuel] turns; [Next] when the loop is still running then. *)
Fixpoint main_loop (fuel : nat) (s : state) : flow * state :=
  match fuel with
  | O => (Next, s)
  | S fuel' =>
      match loop_iteration s with
      | (Break, s') => (Break, s')
      | (Next, s') => main_loop fuel' s'
      end
  end.

(** *** Before and after the loop *)

(** Lines 166-200; [false] is the [exit()] after a failed module check. *)
Definition startup : M bool :=
  passed <- check_dcp405_modules;;
  if negb passed then
    print [[Lit "ERROR: Module check failed. Exiting."]];;
    print [[Lit "=== DCP405 VOLTAGE FOLLOWER END ==="]];;
    ret false
  else
    print [[Lit "Disabling OVP on Ch2..."]];;
    try_except
      (scpi [Lit "INST:NSEL 2"];;
       scpi [Lit "VOLT:PROT:STAT 0"];;
       print [[Lit "OVP disabled"]])
      (fun e => print [[Lit "OVP disable ERROR:"]; [ShowExn e]]);;
    print [[Lit "Opening dialog..."]];;
    try_except
      (scpi [Lit "DISP:DIAL:OPEN "; Quoted "/Scripts/DCP405_voltage_follower.res"];;
       print [[Lit "Dialog opened"]])
      (fun e => print [[Lit "Dialog open ERROR:"]; [ShowExn e]]);;
    scpi (dial_data "status" ",STRING," [Quoted "STOPPED"]);;
    scpi (dial_data "voltage_offset" ",FLOAT,VOLT," [Lit "0.000"]);;
    limit <- gets current_limit;;
    scpi (dial_data "current_limit" ",FLOAT,AMPER," [Fixed3 limit]);;
    updateDisplay;;
    print [[Lit "Waiting for user actions..."]];;
    print [[Lit "Voltage Follower Mode: Output = Input + Offset"]];;
    modify (set_loop_count 0%Z);;
    now <- ticks_ms;;
    modify (set_t now);;
    ret true.

(** Lines 255-265. *)
Definition cleanup : M unit :=
  print [[Lit "Cleaning up..."]];;
  try_except
    (scpi [Lit "INST:NSEL 2"];;
     scpi [Lit "OUTP 0"];;
     scpi [Lit "DISP:DIALog:CLOSe"];;
     print [[Lit "Dialog closed, output disabled"]])
    (fun e => print [[Lit "Cleanup ERROR:"]; [ShowExn e]]);;
  print [[Lit "=== DCP405 VOLTAGE FOLLOWER END ==="]].

(** The state the module starts from (lines 37-43); the literal 0.1 is
    the float nearest to one tenth. *)
Definition initial (d : D) : state :=
  {| running := false;
     voltage_offset := Num 0;
     current_limit := round P (1 # 10);
     target_voltage_set := Num 0;
     loop_count := 0%Z;
     t := 0%Z;
     device := d;
     trace := [EPrint [[Lit "=== DCP405 VOLTAGE FOLLOWER START ==="]]] |}.

Inductive ending :=
| ModuleCheckFailed             (* exit() on line 170 *)
| Uncaught (e : exn)            (* an exception outside every try *)
| StillLooping                  (* the fuel ran out inside the loop *)
| Finished.                     (* the last line was reached *)

(** The whole script, its loop given [fuel] turns. *)
Definition script (fuel : nat) (d : D) : ending * state :=
  match startup (initial d) with
  | (Raise e, s) => (Uncaught e, s)
  | (Ok false, s) => (ModuleCheckFailed, s)
  | (Ok true, s) =>
      match main_loop fuel s with
      | (Next, s') => (StillLooping, s')
      | (Break, s') =>
          match cleanup s' with
          | (Ok _, s'') => (Finished, s'')
          | (Raise e, s'') => (Uncaught e, s'')
          end
      end
  end.

End Script.

Arguments running {D} s.
Arguments voltage_offset {D} s.
Arguments current_limit {D} s.
Arguments target_voltage_set {D} s.
Arguments loop_count {D} s.
Arguments t {D} s.
Arguments device {D} s.
Arguments trace {D} s.
Arguments mkState {D}.
Arguments initial {D} P d.
Arguments float_value {D} P v : simpl never.
Arguments updateDisplay {D} P.
Arguments startControl {D} P.
Arguments stopControl {D} P.
Arguments configVoltageOffset {D} P.
Arguments configCurrentLimit {D} P.
Arguments follow {D} P ch1_v.
Arguments refresh {D} P t_next.
Arguments dispatch {D} P action t_next.
Arguments report {D} ch1_v ch2_v ch2_i.
Arguments loop_body {D} P.
Arguments loop_iteration {D} P s.
Arguments main_loop {D} P fuel s.
Arguments startup {D} P.
Arguments cleanup {D} P.
Arguments script {D} P fuel d.

(** *** A bench to run the script on

    A scripted instrument: the source channel's readings, the answers to
    the action queries and to the input prompts are consumed in order
    (afterwards: 0 V, no action, a cancelled prompt); every other command
    succeeds; the tick counter advances by [step] per reading; floats are
    in double precision. *)
Record bench := {
  source : list (res pyfloat);
  actions : list (res value);
  entries : list (res value);
  clock : Z;
  step : Z
}.

Definition starts_like (head : string) (cmd : text) : bool :=
  match cmd with
  | Lit s :: _ => String.eqb s head
  | _ => false
  end.

Definition bench_scpi (b : bench) (cmd : text) : res value * bench :=
  if starts_like "DISP:DIALog:ACTIon? " cmd then
    match actions b with
    | a :: rest =>
        (a, {| source := source b; actions := rest; entries := entries b;
               clock := clock b; step := step b |})
    | [] => (Ok VNone, b)
    end
  else if starts_like "DISP:INPUT? " cmd then
    match entries b with
    | a :: rest =>
        (a, {| source := source b; actions := actions b; entries := rest;
               clock := clock b; step := step b |})
    | [] => (Ok VNone, b)
    end
  else if starts_like "SYST:CHAN:MODel?" cmd then (Ok (VStr "DCP405"), b)
  else (Ok VNone, b).

Definition bench_getU (b : bench) (ch : Z) : res pyfloat * bench :=
  if (ch =? 1)%Z then
    match source b with
    | r :: rest =>
        (r, {| source := rest; actions := actions b; entries := entries b;
               clock := clock b; step := step b |})
    | [] => (Ok (Num 0), b)
    end
  else (Ok (Num 0), b).

Definition bench_ticks (b : bench) : Z * bench :=
  (clock b,
   {| source := source b; actions := actions b; entries := entries b;
      clock := ticks_add (clock b) (step b); step := step b |}).

Definition sim : platform bench :=
  {| scpi_reply := bench_scpi;
     getU_reply := bench_getU;
     getI_reply := fun b _ => (Ok (Num 0), b);
     setU_reply := fun b _ _ => (Ok tt, b);
     ticks_reply := bench_ticks;
     float_of_str := fun _ => None;
     round := binary64 |}.

(** The voltages the run commanded on the output channel, in order. *)
Fixpoint commanded (tr : list event) : list pyfloat :=
  match tr with
  | ESetU _ v _ :: rest => v :: commanded rest
  | _ :: rest => commanded rest
  | [] => []
  end.

(** A session in the loop, as [startup] leaves it but for the given
    fields, with a current limit of 0.125 A. *)
Definition session {D : Type} (on : bool) (offset : Q) (now : Z) (d : D)
  : state D :=
  mkState on (Num offset) (Num (1 # 8)) (Num 0) 0%Z now d [].

(** The bench of the end-to-end example: the source reads 1.0, 2.0, 3.0 V. *)
Definition ramp : bench :=
  {| source := [Ok (Num 1); Ok (Num 2); Ok (Num 3)];
     actions := [];
     entries := [];
     clock := 0%Z;
     step := 500%Z |}.

(** The bench of the prompt examples: the source reads 5 V and the prompt
    hands back [entered]. *)
Definition prompted (entered : res value) : bench :=
  {| source := [Ok (Num 5)];
     actions := [];
     entries := [entered];
     clock := 0%Z;
     step := 500%Z |}.

(** A bench whose first reading of the source fails. *)
Definition dropout : bench :=
  {| source := [Raise (DeviceError "read failed"); Ok (Num 2)];
     actions := [];
     entries := [];
     clock := 0%Z;
     step := 500%Z |}.


(** A bench on which the dialog is started and then closed. *)
Definition visit : bench :=
  {| source := [Ok (Num 1); Ok (Num 2); Ok (Num 3)];
     actions := [Ok (VStr "start_control"); Ok VNone; Ok (VStr "close_dialog")];
     entries := [];
     clock := 0%Z;
     step := 500%Z |}.

Arguments follower_target : simpl never.
Arguments fadd : simpl never.
Arguments fsub : simpl never.
Arguments fneg : simpl never.
Arguments ticks_add : simpl never.
Arguments ticks_diff : simpl never.

(** Unfolds the monad and the state updates, leaving the platform's
    answers in place. *)
Ltac unfold_script :=
  cbv [bind ret gets modify print scpi getU getI setU ticks_ms try_except
       raise float record set_running set_voltage_offset set_current_limit
       set_target_voltage_set set_loop_count set_t].

(** Reduces the projections of states built by the script. *)
Ltac settle :=
  cbn [running voltage_offset current_limit target_voltage_set loop_count t
       device trace fst snd].

(** Case analysis on the next answer of the instrument. *)
Ltac next_answer :=
  match goal with
  | |- context [scpi_reply ?P ?d ?c] =>
      let r := fresh "r" in let d' := fresh "d" in let E := fresh "E" in
      destruct (scpi_reply P d c) as [r d'] eqn:E; destruct r; settle
  | |- context [getU_reply ?P ?d ?c] =>
      let r := fresh "r" in let d' := fresh "d" in let E := fresh "E" in
      destruct (getU_reply P d c) as [r d'] eqn:E; destruct r; settle
  | |- context [getI_reply ?P ?d ?c] =>
      let r := fresh "r" in let d' := fresh "d" in let E := fresh "E" in
      destruct (getI_reply P d c) as [r d'] eqn:E; destruct r; settle
  | |- context [setU_reply ?P ?d ?c ?v] =>
      let r := fresh "r" in let d' := fresh "d" in let E := fresh "E" in
      destruct (setU_reply P d c v) as [r d'] eqn:E; destruct r; settle
  | |- context [ticks_reply ?P ?d] =>
      let n := fresh "now" in let d' := fresh "d" in let E := fresh "E" in
      destruct (ticks_reply P d) as [n d'] eqn:E; settle
  end.

Arguments bind {D A B} m k.

(** What an event asked of the outside, without the answer. *)
Inductive act :=
| AScpi (cmd : text)
| AGetU (ch : Z)
| AGetI (ch : Z)
| ASetU (ch : Z) (v : pyfloat)
| ATicks
| APrint (args : list text).

Definition act_of (ev : event) : act :=
  match ev with
  | EScpi cmd _ => AScpi cmd
  | EGetU ch _ => AGetU ch
  | EGetI ch _ => AGetI ch
  | ESetU ch v _ => ASetU ch v
  | ETicks _ => ATicks
  | EPrint args => APrint args
  end.

(** Everything [startControl] does outside when no command fails. *)
Definition start_acts (limit : pyfloat) : list act :=
  [APrint [[Lit "START button pressed"]];
   AScpi [Lit "DISP:DIAL:DATA "; Quoted "status"; Lit ",STRING,"; Quoted "RUNNING"];
   AScpi [Lit "INST:NSEL 2"];
   AScpi [Lit "CURR "; ShowFloat limit];
   AScpi [Lit "OUTP 1"];
   APrint [[Lit "Output enabled"]]].

(** Everything [stopControl] does outside when no command fails. *)
Definition stop_acts : list act :=
  [APrint [[Lit "STOP button pressed"]];
   AScpi [Lit "DISP:DIAL:DATA "; Quoted "status"; Lit ",STRING,"; Quoted "STOPPED"];
   AScpi [Lit "INST:NSEL 2"];
   AScpi [Lit "OUTP 0"];
   APrint [[Lit "Output disabled"]]].

(** The same action applied twice in a row. *)
Definition twice {D : Type} (m : M D unit) : M D unit := bind m (fun _ => m).

(** The events of [s'] that came after [s]. *)
Definition since {D : Type} (s s' : state D) : list event :=
  skipn (List.length (trace s)) (trace s').

(** The events of a display update in which nothing fails. *)
Definition display_events (a1 a2 a3 a4 a5 a6 a7 : value)
           (ch1_voltage ch1_current ch2_voltage ch2_current : pyfloat)
           (offset limit : pyfloat) : list event :=
  [EScpi [Lit "INST:NSEL 1"] (Ok a1);
   EGetU 1 (Ok ch1_voltage);
   EGetI 1 (Ok ch1_current);
   EScpi [Lit "INST:NSEL 2"] (Ok a2);
   EGetU 2 (Ok ch2_voltage);
   EGetI 2 (Ok ch2_current);
   EScpi (dial_data "source_voltage" ",FLOAT,VOLT," [ShowFloat ch1_voltage])
         (Ok a3);
   EScpi (dial_data "target_voltage" ",FLOAT,VOLT," [ShowFloat ch2_voltage])
         (Ok a4);
   EScpi (dial_data "target_current" ",FLOAT,AMPER," [ShowFloat ch2_current])
         (Ok a5);
   EScpi (dial_data "voltage_offset" ",FLOAT,VOLT," [Fixed3 offset]) (Ok a6);
   EScpi (dial_data "current_limit" ",FLOAT,AMPER," [Fixed3 limit]) (Ok a7)].

(** *** Errors in the trace *)

(** The exception an event ended in, if any. *)
Definition error_of (ev : event) : option exn :=
  match ev with
  | EScpi _ (Raise e) => Some e
  | EGetU _ (Raise e) => Some e
  | EGetI _ (Raise e) => Some e
  | ESetU _ _ (Raise e) => Some e
  | _ => None
  end.

Definition quoted_is (name : string) (rest : text) : bool :=
  match rest with
  | Quoted s :: _ => String.eqb s name
  | _ => false
  end.

(** The line an [except] clause prints: a tag and the exception. *)
Definition caught (tag : string) (e : exn) : event :=
  EPrint [[Lit tag]; [ShowExn e]].

(** The three [except] clauses that a call made inside the loop can end
    in: the one of [updateDisplay] (line 101), the one of
    [configVoltageOffset] (line 152) and the loop's own (line 251). *)
Inductive handler := DisplayHandler | OffsetHandler | LoopHandler.

Definition handler_tag (h : handler) : string :=
  match h with
  | DisplayHandler => "Display update ERROR:"
  | OffsetHandler => "Offset config ERROR:"
  | LoopHandler => "Loop ERROR:"
  end.

(** The event before is the line [configVoltageOffset] opens with. *)
Definition after_offset_banner (prev : option event) : bool :=
  match prev with
  | Some (EPrint [[Lit s]]) => String.eqb s "Config Voltage Offset"
  | _ => false
  end.

(** The event before is a current reading. *)
Definition after_getI (prev : option event) : bool :=
  match prev with
  | Some (EGetI _ _) => true
  | _ => false
  end.

(** Where each call of the loop is made, read off the call and the event
    just before it.  [updateDisplay] makes the reads of voltage and
    current, the select of channel 1, the select of channel 2 that
    follows a current reading, and the pushes of the readings and
    settings to the dialog; [configVoltageOffset] makes the voltage read
    that follows its opening line and the offset prompt.  Every other
    call is made under the loop's handler alone: the action query, the
    status push, CURR, OUTP, the current-limit prompt, the output set and
    every other select of channel 2. *)
Definition handler_of (prev : option event) (ev : event) : handler :=
  match ev with
  | EGetU _ _ =>
      if after_offset_banner prev then OffsetHandler else DisplayHandler
  | EGetI _ _ => DisplayHandler
  | EScpi (Lit head :: rest) _ =>
      if String.eqb head "INST:NSEL 1" then DisplayHandler
      else if String.eqb head "INST:NSEL 2" then
        if after_getI prev then DisplayHandler else LoopHandler
      else if String.eqb head "DISP:DIAL:DATA " then
        if quoted_is "status" rest then LoopHandler else DisplayHandler
      else if String.eqb head "DISP:INPUT? " then
        if quoted_is "Voltage Offset" rest then OffsetHandler
        else LoopHandler
      else LoopHandler
  | _ => LoopHandler
  end.

(** The last event of [tr], or [prev] when there is none. *)
Definition last_event (prev : option event) (tr : list event)
  : option event :=
  last (map Some tr) prev.

(** A stretch of trace, coming after [prev], in which every failed call
    belongs to one of the two inner handlers and is followed at once by
    that handler's line. *)
Inductive fine : option event -> list event -> Prop :=
| fine_nil (prev : option event) : fine prev []
| fine_step (prev : option event) (ev : event) (tr : list event) :
    error_of ev = None -> fine (Some ev) tr -> fine prev (ev :: tr)
| fine_caught (prev : option event) (ev : event) (e : exn)
              (tr : list event) :
    error_of ev = Some e -> handler_of prev ev <> LoopHandler ->
    fine (Some (caught (handler_tag (handler_of prev ev)) e)) tr ->
    fine prev (ev :: caught (handler_tag (handler_of prev ev)) e :: tr).

(** An event after which the next call is classified by itself. *)
Definition neutral (prev : option event) : Prop :=
  after_offset_banner prev = false /\ after_getI prev = false.


(** The deadline after [n] turns that started from the deadline [t0]. *)
Definition deadline (n : nat) (t0 : Z) : Z :=
  Nat.iter n (fun d => ticks_add d 500) t0.

(** *** The output target (lines 226-238) *)

(** What the two comparisons of lines 231-234 make of the sum: a NaN
    fails both and is kept. *)
Lemma follower_target_cases (round : Q -> pyfloat) (v o : pyfloat) :
  (fadd round v o = NaN /\ follower_target round v o = NaN)
  \/ (flt (fadd round v o) (Num 0) = true
      /\ follower_target round v o = Num 0)
  \/ (fgt (fadd round v o) (Num 40) = true
      /\ follower_target round v o = Num 40)
  \/ (within 0 40 (fadd round v o)
      /\ follower_target round v o = fadd round v o).
Proof.
  unfold follower_target, fgt.
  destruct (fadd round v o) as [q| [|] |]; simpl.
  - destruct (Qltb q 0) eqn:Elo; [right; left; auto|].
    destruct (Qltb 40 q) eqn:Ehi; [right; right; left; auto|].
    right; right; right. apply Qltb_ge in Elo, Ehi. auto.
  - right; left. auto.
  - right; right; left. auto.
  - left. auto.
Qed.

Lemma follower_target_nan (round : Q -> pyfloat) (v o : pyfloat) :
  fadd round v o = NaN <-> follower_target round v o = NaN.
Proof.
  destruct (follower_target_cases round v o)
    as [[H E]|[[H E]|[[H E]|[H E]]]]; rewrite E; split; intros H'; auto;
    try discriminate.
  - rewrite H' in H. discriminate H.
  - rewrite H' in H. discriminate H.
Qed.

(** Never below 0 V, never above 40 V: within the range, or NaN. *)
Lemma follower_target_range (round : Q -> pyfloat) (v o : pyfloat) :
  follower_target round v o = NaN \/ within 0 40 (follower_target round v o).
Proof.
  destruct (follower_target_cases round v o)
    as [[H E]|[[H E]|[[H E]|[H E]]]]; rewrite E; auto;
    right; simpl; lra.
Qed.

(** On a finite sum the two branches are the specification's clamp. *)
Lemma follower_target_clamp (round : Q -> pyfloat) (v o : pyfloat) (q : Q) :
  fadd round v o = Num q ->
  exists c, follower_target round v o = Num c /\ c == clamp 0 40 q.
Proof.
  intros Hsum. unfold clamp.
  destruct (follower_target_cases round v o)
    as [[H E]|[[H E]|[[H E]|[H E]]]]; rewrite E; rewrite Hsum in *.
  - discriminate H.
  - simpl in H. apply Qltb_lt in H. exists 0. split; [reflexivity|].
    rewrite Q.min_r by lra. rewrite Q.max_l by lra. reflexivity.
  - unfold fgt in H. simpl in H. apply Qltb_lt in H. exists 40.
    split; [reflexivity|].
    rewrite Q.min_l by lra. rewrite Q.max_r by lra. reflexivity.
  - simpl in H. exists q. split; [reflexivity|].
    rewrite Q.min_r by lra. rewrite Q.max_r by lra. reflexivity.
Qed.

Section Properties.

Variable D : Type.
Variable P : platform D.

(** The script's globals, apart from the loop's own counters. *)
Definition globals (s : state D) : bool * pyfloat * pyfloat * pyfloat :=
  (running s, voltage_offset s, current_limit s, target_voltage_set s).

(** While running, [follow] selects channel 2 and commands the target. *)
Lemma follow_running (s : state D) (v : pyfloat) (a : value) (d1 : D) :
  running s = true ->
  scpi_reply P (device s) [Lit "INST:NSEL 2"] = (Ok a, d1) ->
  let target := follower_target (round P) v (voltage_offset s) in
  let answer := setU_reply P d1 2 target in
  follow P v s
  = (fst answer,
     mkState true (voltage_offset s) (current_limit s) target
             (loop_count s) (t s) (snd answer)
             (trace s ++ [EScpi [Lit "INST:NSEL 2"] (Ok a);
                          ESetU 2 target (fst answer)])).
Proof.
  intros Hon Hsel target answer. unfold follow. unfold_script.
  rewrite Hon. simpl. rewrite Hsel. simpl.
  subst answer. fold target.
  destruct (setU_reply P d1 2 target) as [r d2]. simpl.
  now rewrite Hon, <- app_assoc.
Qed.

Lemma follow_stopped (s : state D) (v : pyfloat) :
  running s = false -> follow P v s = (Ok tt, s).
Proof. intros Hoff. unfold follow. unfold_script. now rewrite Hoff. Qed.

(** *** Start and stop (lines 105-128) *)

Lemma since_app (s s' : state D) (new : list event) :
  trace s' = trace s ++ new -> since s s' = new.
Proof.
  intros H. unfold since. rewrite H, skipn_app, skipn_all, Nat.sub_diag.
  reflexivity.
Qed.

(** Closes a goal [trace-expression = trace s ++ ?new]. *)
Ltac trace_tail := rewrite <- ?app_assoc; simpl; reflexivity.

Lemma startControl_spec (s : state D) :
  let s' := snd (startControl P s) in
  globals s' = (true, voltage_offset s, current_limit s, target_voltage_set s)
  /\ loop_count s' = loop_count s /\ t s' = t s
  /\ exists new n,
       trace s' = trace s ++ new
       /\ map act_of new = firstn n (start_acts (current_limit s))
       /\ (fst (startControl P s) = Ok tt
           -> map act_of new = start_acts (current_limit s)).
Proof.
  unfold startControl, dial_data, globals. unfold_script. settle.
  repeat next_answer; simpl; (split; [reflexivity|]);
    (split; [reflexivity|]); (split; [reflexivity|]);
    eexists; [exists 6%nat|exists 5%nat|exists 4%nat|exists 3%nat|exists 2%nat];
    (split; [trace_tail|]); (split; [reflexivity|]);
    try reflexivity; discriminate.
Qed.

Lemma stopControl_spec (s : state D) :
  let s' := snd (stopControl P s) in
  globals s' = (false, voltage_offset s, current_limit s, target_voltage_set s)
  /\ loop_count s' = loop_count s /\ t s' = t s
  /\ exists new n,
       trace s' = trace s ++ new
       /\ map act_of new = firstn n stop_acts
       /\ (fst (stopControl P s) = Ok tt -> map act_of new = stop_acts).
Proof.
  unfold stopControl, dial_data, globals. unfold_script. settle.
  repeat next_answer; simpl; (split; [reflexivity|]);
    (split; [reflexivity|]); (split; [reflexivity|]);
    eexists; [exists 5%nat|exists 4%nat|exists 3%nat|exists 2%nat];
    (split; [trace_tail|]); (split; [reflexivity|]);
    try reflexivity; discriminate.
Qed.

Lemma twice_state (m : M D unit) (s : state D) :
  snd (twice m s) = snd (m (snd (m s))) \/ snd (twice m s) = snd (m s).
Proof.
  unfold twice, bind. destruct (m s) as [[[]|e] s1]; simpl; auto.
Qed.

(** *** The offset prompt (lines 130-153) *)

Lemma configVoltageOffset_never_raises (s : state D) :
  fst (configVoltageOffset P s) = Ok tt.
Proof.
  unfold configVoltageOffset. unfold_script. simpl.
  repeat next_answer; simpl; try reflexivity.
  destruct (is_none a0); simpl; [reflexivity|].
  destruct (float_value P a0); reflexivity.
Qed.

Lemma configVoltageOffset_spec (s : state D) (v : pyfloat) (d1 d2 : D)
      (answer : res value) :
  let prompt :=
    offset_prompt (fneg v) (fsub (round P) (Num 40) v) (voltage_offset s) in
  getU_reply P (device s) 1 = (Ok v, d1) ->
  scpi_reply P d1 prompt = (answer, d2) ->
  let s' := snd (configVoltageOffset P s) in
  (exists rest,
      trace s' = trace s ++ EPrint [[Lit "Config Voltage Offset"]]
                         :: EGetU 1 (Ok v)
                         :: EScpi prompt answer
                         :: rest)
  /\ running s' = running s
  /\ current_limit s' = current_limit s
  /\ target_voltage_set s' = target_voltage_set s
  /\ voltage_offset s'
     = match answer with
       | Ok VNone => voltage_offset s
       | Ok value =>
           match float_value P value with
           | Ok q => q
           | Raise _ => voltage_offset s
           end
       | Raise _ => voltage_offset s
       end.
Proof.
  intros prompt HU Hprompt. subst prompt.
  unfold configVoltageOffset. unfold_script. simpl.
  rewrite HU. simpl. rewrite Hprompt.
  destruct answer as [value|e]; simpl.
  - destruct value; simpl;
      try (destruct (float_value P _); simpl);
      (split; [eexists; trace_tail|]); repeat split.
  - (split; [eexists; trace_tail|]); repeat split.
Qed.

(** *** A discipline for exceptions: every computation of the loop is tidy *)

Lemma last_event_cons (p : option event) (ev : event) (tr : list event) :
  last_event p (ev :: tr) = last_event (Some ev) tr.
Proof.
  unfold last_event. simpl map. generalize (map Some tr) as l.
  intros l. revert p. generalize (Some ev) as x.
  induction l as [|y l IH]; intros x p; [reflexivity|].
  change (last (x :: y :: l) p) with (last (y :: l) p).
  rewrite (IH y p). simpl. destruct l; [reflexivity|].
  symmetry. apply (IH y x).
Qed.

Lemma last_event_app (p : option event) (a b : list event) :
  last_event p (a ++ b) = last_event (last_event p a) b.
Proof.
  revert p. induction a as [|ev a IH]; intros p; [reflexivity|].
  simpl app. rewrite !last_event_cons. apply IH.
Qed.

Lemma last_event_snoc (p : option event) (a : list event) (ev : event) :
  last_event p (a ++ [ev]) = Some ev.
Proof. rewrite last_event_app. reflexivity. Qed.

Lemma fine_app (p : option event) (a b : list event) :
  fine p a -> fine (last_event p a) b -> fine p (a ++ b).
Proof.
  induction 1 as [p|p ev tr Hev Htr IH|p ev e tr Hev Hh Htr IH];
    intros Hb; simpl.
  - exact Hb.
  - apply fine_step; [exact Hev|]. apply IH.
    now rewrite last_event_cons in Hb.
  - apply fine_caught; [exact Hev|exact Hh|]. apply IH.
    now rewrite !last_event_cons in Hb.
Qed.

(** An exception [e] is on its way to the handler [h] after the events
    [new]: they are fine, but possibly for a last failed call, which
    belongs to [h]. *)
Definition pending (h : handler) (p : option event) (e : exn)
           (new : list event) : Prop :=
  fine p new
  \/ exists q ev,
       new = q ++ [ev] /\ fine p q /\ error_of ev = Some e
       /\ handler_of (last_event p q) ev = h.

(** Run under the handler [h] after an event in [pre], the computation
    adds fine events and ends after an event in [post], or raises with
    its exception pending for [h]. *)
Definition tidy {A : Type} (h : handler) (pre post : option event -> Prop)
           (m : M D A) : Prop :=
  forall s p,
    pre p ->
    exists new,
      trace (snd (m s)) = trace s ++ new
      /\ match fst (m s) with
         | Ok _ => fine p new /\ post (last_event p new)
         | Raise e => pending h p e new
         end.

Lemma pending_app (h : handler) (p : option event) (e : exn)
      (a b : list event) :
  fine p a -> pending h (last_event p a) e b -> pending h p e (a ++ b).
Proof.
  intros Ha [Hb|(q & ev & -> & Hq & He & Hh)].
  - left. now apply fine_app.
  - right. exists (a ++ q), ev. rewrite app_assoc.
    repeat split; auto.
    + now apply fine_app.
    + now rewrite last_event_app.
Qed.


(** A step that adds no event: [ret], [gets], [modify], [float]. *)
Lemma tidy_quiet {A : Type} h (pre post : option event -> Prop) (m : M D A) :
  (forall s, trace (snd (m s)) = trace s) ->
  (forall p, pre p -> post p) ->
  tidy h pre post m.
Proof.
  intros Hm Hpost s p Hp. exists []. rewrite app_nil_r.
  split; [apply Hm|]. destruct (fst (m s)).
  - split; [constructor|now apply Hpost].
  - left. constructor.
Qed.

Lemma tidy_quiet_bind {A B : Type} h (pre post : option event -> Prop)
      (m : M D A) (k : A -> M D B) :
  (forall s, trace (snd (m s)) = trace s) ->
  (forall a, tidy h pre post (k a)) ->
  tidy h pre post (bind m k).
Proof.
  intros Hm Hk s p Hp. unfold bind. specialize (Hm s).
  destruct (m s) as [[a|e] s1]; simpl in *.
  - destruct (Hk a s1 p Hp) as (new & Htr & Hpost).
    exists new. rewrite Htr, Hm. auto.
  - exists []. rewrite app_nil_r. split; [exact Hm|]. left. constructor.
Qed.

(** A step that adds one event and cannot fail: [print], [ticks_ms]. *)
Lemma tidy_print h (pre post : option event -> Prop) (args : list text) :
  post (Some (EPrint args)) -> tidy h pre post (print D args).
Proof.
  intros Hpost s p Hp. exists [EPrint args]. simpl.
  split; [reflexivity|]. split; [|exact Hpost].
  apply fine_step; [reflexivity|constructor].
Qed.

Lemma tidy_print_bind {B : Type} h (pre post : option event -> Prop)
      (args : list text) (k : unit -> M D B) :
  (forall u, tidy h (eq (Some (EPrint args))) post (k u)) ->
  tidy h pre post (bind (print D args) k).
Proof.
  intros Hk s p Hp. unfold bind, print.
  match goal with
  | |- context [k tt ?st] =>
      destruct (Hk tt st (Some (EPrint args)) eq_refl) as (new & Htr & Hpost)
  end.
  exists (EPrint args :: new). rewrite Htr. simpl. rewrite <- app_assoc.
  split; [reflexivity|].
  destruct (fst (k tt _)).
  - rewrite last_event_cons. split; [|apply Hpost].
    apply fine_step; [reflexivity|apply Hpost].
  - apply (pending_app h p e [EPrint args] new); [|exact Hpost].
    apply fine_step; [reflexivity|constructor].
Qed.

Lemma tidy_ticks_bind {B : Type} h (pre post : option event -> Prop)
      (k : Z -> M D B) :
  (forall now, tidy h (eq (Some (ETicks now))) post (k now)) ->
  tidy h pre post (bind (ticks_ms D P) k).
Proof.
  intros Hk s p Hp. unfold bind, ticks_ms.
  destruct (ticks_reply P (device s)) as [now d].
  match goal with
  | |- context [k now ?st] =>
      destruct (Hk now st (Some (ETicks now)) eq_refl) as (new & Htr & Hpost)
  end.
  exists (ETicks now :: new). rewrite Htr. simpl. rewrite <- app_assoc.
  split; [reflexivity|].
  destruct (fst (k now _)).
  - rewrite last_event_cons. split; [|apply Hpost].
    apply fine_step; [reflexivity|apply Hpost].
  - apply (pending_app h p e [ETicks now] new); [|exact Hpost].
    apply fine_step; [reflexivity|constructor].
Qed.

(** A call of the instrument: one event, which carries its answer. *)
Definition call {A : Type} (m : M D A) (ev : res A -> event) : Prop :=
  (forall s, exists r d, m s = (r, record D d (ev r) s))
  /\ (forall a, error_of (ev (Ok a)) = None)
  /\ (forall e, error_of (ev (Raise e)) = Some e).

Lemma call_scpi (cmd : text) : call (scpi D P cmd) (EScpi cmd).
Proof.
  split; [|split; reflexivity]. intros s. unfold scpi.
  destruct (scpi_reply P (device s) cmd) as [r d]. now exists r, d.
Qed.

Lemma call_getU (ch : Z) : call (getU D P ch) (EGetU ch).
Proof.
  split; [|split; reflexivity]. intros s. unfold getU.
  destruct (getU_reply P (device s) ch) as [r d]. now exists r, d.
Qed.

Lemma call_getI (ch : Z) : call (getI D P ch) (EGetI ch).
Proof.
  split; [|split; reflexivity]. intros s. unfold getI.
  destruct (getI_reply P (device s) ch) as [r d]. now exists r, d.
Qed.

Lemma call_setU (ch : Z) (v : pyfloat) : call (setU D P ch v) (ESetU ch v).
Proof.
  split; [|split; reflexivity]. intros s. unfold setU.
  destruct (setU_reply P (device s) ch v) as [r d]. now exists r, d.
Qed.

Lemma tidy_call {A : Type} h (pre post : option event -> Prop)
      (m : M D A) (ev : res A -> event) :
  call m ev ->
  (forall p e, pre p -> handler_of p (ev (Raise e)) = h) ->
  (forall a, post (Some (ev (Ok a)))) ->
  tidy h pre post m.
Proof.
  intros (Hm & Hok & Hbad) Hh Hpost s p Hp.
  destruct (Hm s) as (r & d & ->). exists [ev r]. simpl.
  split; [reflexivity|]. destruct r as [a|e].
  - split; [|apply Hpost]. apply fine_step; [apply Hok|constructor].
  - right. exists [], (ev (Raise e)).
    split; [reflexivity|]. split; [constructor|].
    split; [apply Hbad|]. now apply Hh.
Qed.

Lemma tidy_call_bind {A B : Type} h (pre post : option event -> Prop)
      (m : M D A) (ev : res A -> event) (k : A -> M D B) :
  call m ev ->
  (forall p e, pre p -> handler_of p (ev (Raise e)) = h) ->
  (forall a, tidy h (eq (Some (ev (Ok a)))) post (k a)) ->
  tidy h pre post (bind m k).
Proof.
  intros (Hm & Hok & Hbad) Hh Hk s p Hp. unfold bind.
  destruct (Hm s) as (r & d & ->). destruct r as [a|e].
  - match goal with
    | |- context [k a ?st] =>
        destruct (Hk a st (Some (ev (Ok a))) eq_refl) as (new & Htr & Hpost)
    end.
    exists (ev (Ok a) :: new). rewrite Htr. simpl. rewrite <- app_assoc.
    split; [reflexivity|].
    destruct (fst (k a _)).
    + rewrite last_event_cons. split; [|apply Hpost].
      apply fine_step; [apply Hok|apply Hpost].
    + apply (pending_app h p e [ev (Ok a)] new); [|exact Hpost].
      apply fine_step; [apply Hok|constructor].
  - exists [ev (Raise e)]. simpl. split; [reflexivity|].
    right. exists [], (ev (Raise e)).
    split; [reflexivity|]. split; [constructor|].
    split; [apply Hbad|]. now apply Hh.
Qed.

Lemma tidy_bind {A B : Type} h (pre mid post : option event -> Prop)
      (m : M D A) (k : A -> M D B) :
  tidy h pre mid m -> (forall a, tidy h mid post (k a)) ->
  tidy h pre post (bind m k).
Proof.
  intros Hm Hk s p Hp. destruct (Hm s p Hp) as (n1 & Htr1 & Hpost1).
  unfold bind. destruct (m s) as [[a|e] s1]; simpl in *.
  - destruct Hpost1 as [Hfine1 Hmid].
    destruct (Hk a s1 _ Hmid) as (n2 & Htr2 & Hpost2).
    exists (n1 ++ n2). rewrite Htr2, Htr1, app_assoc. split; [reflexivity|].
    destruct (fst (k a s1)).
    + rewrite last_event_app. split; [now apply fine_app|apply Hpost2].
    + now apply pending_app.
  - exists n1. split; assumption.
Qed.

(** A [try] whose handler is one of the two inner ones: it prints its
    line and carries on with the value [a], so that nothing is pending
    afterwards, whatever the handler around it. *)
Lemma tidy_try {A : Type} (h h' : handler)
      (pre post : option event -> Prop) (a : A) (m : M D A)
      (hd : exn -> M D A) :
  h' <> LoopHandler ->
  (forall e s,
      hd e s = (Ok a, record D (device s) (caught (handler_tag h') e) s)) ->
  (forall e, post (Some (caught (handler_tag h') e))) ->
  tidy h' pre post m ->
  tidy h pre post (try_except D m hd).
Proof.
  intros Hinner Hhd Hpost Hm s p Hp.
  destruct (Hm s p Hp) as (n1 & Htr1 & Hpost1).
  unfold try_except. destruct (m s) as [[x|e] s1]; simpl in *.
  - exists n1. split; assumption.
  - rewrite Hhd. simpl. exists (n1 ++ [caught (handler_tag h') e]).
    rewrite Htr1, app_assoc. split; [reflexivity|].
    rewrite last_event_snoc. split; [|apply Hpost].
    destruct Hpost1 as [Hq|(q & ev & -> & Hq & He & Hh)].
    + apply fine_app; [exact Hq|].
      apply fine_step; [reflexivity|constructor].
    + rewrite <- app_assoc. apply fine_app; [exact Hq|]. simpl.
      rewrite <- Hh. apply fine_caught; auto.
      * now rewrite Hh.
      * constructor.
Qed.

End Properties.

Arguments globals {D} s.
Arguments tidy {D A} h pre post m.

(** The side conditions of the discipline: where a call belongs, after
    the event before it. *)
Ltac tidy_side :=
  let p := fresh "p" in let e := fresh "e" in let Hp := fresh "Hp" in
  intros p e Hp;
  first [ reflexivity
        | subst p; reflexivity
        | destruct Hp as [Hp ?]; cbn; rewrite ?Hp; reflexivity
        | destruct Hp as [? Hp]; cbn; rewrite ?Hp; reflexivity ].

Ltac tidy_post := intros; split; reflexivity.

Ltac tidy_keep :=
  let p := fresh "p" in let Hp := fresh "Hp" in
  intros p Hp; first [exact Hp | subst p; split; reflexivity].

(** One rule of the discipline, chosen by the shape of the computation. *)
Ltac tidy_step :=
  lazymatch goal with
  | |- tidy _ _ _ (bind (scpi _ _ _) _) =>
      eapply tidy_call_bind; [apply call_scpi|tidy_side|intros]
  | |- tidy _ _ _ (bind (getU _ _ _) _) =>
      eapply tidy_call_bind; [apply call_getU|tidy_side|intros]
  | |- tidy _ _ _ (bind (getI _ _ _) _) =>
      eapply tidy_call_bind; [apply call_getI|tidy_side|intros]
  | |- tidy _ _ _ (bind (setU _ _ _ _) _) =>
      eapply tidy_call_bind; [apply call_setU|tidy_side|intros]
  | |- tidy _ _ _ (bind (print _ _) _) => apply tidy_print_bind; intros
  | |- tidy _ _ _ (bind (ticks_ms _ _) _) => apply tidy_ticks_bind; intros
  | |- tidy _ _ _ (bind (gets _ _) _) =>
      apply tidy_quiet_bind; [intros; reflexivity|intros]
  | |- tidy _ _ _ (bind (modify _ _) _) =>
      apply tidy_quiet_bind; [intros; reflexivity|intros]
  | |- tidy _ _ _ (bind (float _ _ _) _) =>
      apply tidy_quiet_bind; [intros; reflexivity|intros]
  | |- tidy _ _ _ (scpi _ _ _) =>
      eapply tidy_call; [apply call_scpi|tidy_side|tidy_post]
  | |- tidy _ _ _ (setU _ _ _ _) =>
      eapply tidy_call; [apply call_setU|tidy_side|tidy_post]
  | |- tidy _ _ _ (print _ _) => apply tidy_print; split; reflexivity
  | |- tidy _ _ _ (ret _ _) =>
      apply tidy_quiet; [intros; reflexivity|tidy_keep]
  | |- tidy _ _ _ (modify _ _) =>
      apply tidy_quiet; [intros; reflexivity|tidy_keep]
  | |- tidy _ _ _ (if ?c then _ else _) => destruct c
  | |- tidy _ _ _ (let '(_, _) := ?x in _) => destruct x
  end.

Section Discipline.

Variable D : Type.
Variable P : platform D.

Lemma updateDisplay_tidy h : tidy h neutral neutral (updateDisplay P).
Proof.
  unfold updateDisplay.
  apply (tidy_try D h DisplayHandler neutral neutral (Num 0, Num 0, Num 0)).
  - discriminate.
  - intros e s. reflexivity.
  - intros e. split; reflexivity.
  - repeat tidy_step.
Qed.

Lemma configVoltageOffset_tidy h :
  tidy h neutral neutral (configVoltageOffset P).
Proof.
  unfold configVoltageOffset. apply tidy_print_bind. intros _.
  apply (tidy_try D h OffsetHandler _ neutral tt).
  - discriminate.
  - intros e s. reflexivity.
  - intros e. split; reflexivity.
  - repeat tidy_step.
Qed.

Lemma startControl_tidy : tidy LoopHandler neutral neutral (startControl P).
Proof. unfold startControl. repeat tidy_step. Qed.

Lemma stopControl_tidy : tidy LoopHandler neutral neutral (stopControl P).
Proof. unfold stopControl. repeat tidy_step. Qed.

Lemma configCurrentLimit_tidy :
  tidy LoopHandler neutral neutral (configCurrentLimit P).
Proof. unfold configCurrentLimit. repeat tidy_step. Qed.

Lemma follow_tidy (v : pyfloat) :
  tidy LoopHandler neutral neutral (follow P v).
Proof. unfold follow. repeat tidy_step. Qed.

Lemma report_tidy (a b c : pyfloat) :
  tidy LoopHandler neutral neutral (@report D a b c).
Proof. unfold report. repeat tidy_step. Qed.

Lemma refresh_tidy (t_next : Z) :
  tidy LoopHandler neutral neutral (refresh P t_next).
Proof.
  unfold refresh.
  apply (tidy_bind D _ _ neutral); [apply updateDisplay_tidy|].
  intros [[ch1_v ch2_v] ch2_i].
  apply (tidy_bind D _ _ neutral); [apply follow_tidy|intros _].
  apply (tidy_bind D _ _ neutral); [apply report_tidy|intros _].
  repeat tidy_step.
Qed.

Lemma dispatch_tidy (action : value) (t_next : Z) :
  tidy LoopHandler neutral neutral (dispatch P action t_next).
Proof.
  unfold dispatch.
  repeat match goal with
         | |- tidy _ _ _ (if ?c then _ else _) => destruct c
         end.
  - apply (tidy_bind D _ _ neutral);
      [apply startControl_tidy|intros _; apply refresh_tidy].
  - apply (tidy_bind D _ _ neutral);
      [apply stopControl_tidy|intros _; apply refresh_tidy].
  - apply (tidy_bind D _ _ neutral);
      [apply configVoltageOffset_tidy|intros _; apply refresh_tidy].
  - apply (tidy_bind D _ _ neutral);
      [apply configCurrentLimit_tidy|intros _; apply refresh_tidy].
  - repeat tidy_step.
  - apply refresh_tidy.
Qed.


(** Every computation of the loop only adds to the trace. *)
Lemma tidy_grows {A : Type} h (post : option event -> Prop) (m : M D A)
      (s : state D) :
  tidy h neutral post m -> exists new, trace (snd (m s)) = trace s ++ new.
Proof.
  intros Hm. destruct (Hm s None) as (new & Htr & _).
  - split; reflexivity.
  - now exists new.
Qed.





(** *** The two handlers inside the loop *)



(** The two ways of a display update: every call succeeds, or the first
    failure is printed and 0, 0, 0 returned. *)
Lemma updateDisplay_paths (s : state D) :
  let r := updateDisplay P s in
  globals (snd r) = globals s
  /\ loop_count (snd r) = loop_count s
  /\ t (snd r) = t s
  /\ ((exists a1 a2 a3 a4 a5 a6 a7 v1 i1 v2 i2,
          fst r = Ok (v1, v2, i2)
          /\ since s (snd r)
             = display_events a1 a2 a3 a4 a5 a6 a7 v1 i1 v2 i2
                 (voltage_offset s) (current_limit s))
      \/ (exists pre failed e,
             fst r = Ok (Num 0, Num 0, Num 0)
             /\ since s (snd r)
                = pre ++ [failed; caught "Display update ERROR:" e]
             /\ error_of failed = Some e
             /\ Forall (fun ev => error_of ev = None) pre)).
Proof.
  intros r. subst r. unfold updateDisplay, globals, display_events.
  unfold_script. settle.
  repeat next_answer;
    (split; [reflexivity|]); (split; [reflexivity|]); (split; [reflexivity|]);
    (erewrite since_app by (settle; rewrite <- ?app_assoc; simpl; reflexivity));
    first
      [ left; do 11 eexists; split; reflexivity
      | match goal with
        | |- _ \/ (exists pre failed e, _ /\ ?L = _ /\ _ /\ _) =>
            right;
            exists (firstn (List.length L - 2) L),
                   (nth (List.length L - 2) L (ETicks 0));
            eexists; split; [reflexivity|];
            split; [reflexivity|]; split; [reflexivity|];
            simpl; repeat (constructor; [reflexivity|]); constructor
        end ].
Qed.


(** *** Tick arithmetic and the loop's deadlines *)

Lemma ticks_diff_congruent (x y delta : Z) :
  (x mod TICKS_PERIOD = (y + delta) mod TICKS_PERIOD)%Z ->
  (0 <= delta < TICKS_PERIOD / 2)%Z ->
  ticks_diff x y = delta.
Proof.
  unfold ticks_diff, TICKS_PERIOD.
  change (2 ^ 30)%Z with 1073741824%Z.
  change (1073741824 / 2)%Z with 536870912%Z.
  intros Hx Hd.
  replace (x - y + 536870912)%Z with (x + (536870912 - y))%Z by ring.
  rewrite <- Zplus_mod_idemp_l, Hx, Zplus_mod_idemp_l.
  replace (y + delta + (536870912 - y))%Z with (delta + 536870912)%Z by ring.
  rewrite Z.mod_small by lia. lia.
Qed.

Lemma ticks_add_mod (t0 delta : Z) :
  ((ticks_add t0 delta) mod TICKS_PERIOD = (t0 + delta) mod TICKS_PERIOD)%Z.
Proof. unfold ticks_add. apply Z.mod_mod. discriminate. Qed.

Lemma ticks_diff_add (t0 delta : Z) :
  (0 <= delta < TICKS_PERIOD / 2)%Z ->
  ticks_diff (ticks_add t0 delta) t0 = delta.
Proof. intros H. apply ticks_diff_congruent; [apply ticks_add_mod|exact H]. Qed.

Lemma deadline_mod (n : nat) (t0 : Z) :
  ((deadline n t0) mod TICKS_PERIOD
   = (t0 + 500 * Z.of_nat n) mod TICKS_PERIOD)%Z.
Proof.
  induction n as [|n IH].
  - simpl. f_equal. lia.
  - unfold deadline in *. rewrite Nat.iter_succ, ticks_add_mod.
    rewrite <- Zplus_mod_idemp_l, IH, Zplus_mod_idemp_l. f_equal. lia.
Qed.

Lemma refresh_next (t_next : Z) (s s' : state D) (f : flow) :
  refresh P t_next s = (Ok f, s') -> f = Next /\ t s' = t_next.
Proof.
  unfold refresh, bind.
  destruct (updateDisplay P s) as [[[[ch1_v ch2_v] ch2_i]|e] s1];
    [|discriminate].
  destruct (follow P ch1_v s1) as [[[]|e] s2]; [|discriminate].
  destruct (report ch1_v ch2_v ch2_i s2) as [[[]|e] s3]; [|discriminate].
  unfold modify, ret. intros H. inversion H. split; reflexivity.
Qed.

Lemma dispatch_next (action : value) (t_next : Z) (s s' : state D) :
  dispatch P action t_next s = (Ok Next, s') -> t s' = t_next.
Proof.
  unfold dispatch.
  repeat match goal with
         | |- context [if ?c then _ else _] => destruct c
         end;
    unfold bind;
    try match goal with
        | |- context [match ?m s with _ => _ end] =>
            destruct (m s) as [[[]|e] s1]; [|discriminate]
        end;
    try (intros H; now apply refresh_next in H).
  unfold ret. discriminate.
Qed.

Lemma loop_iteration_next (s s' : state D) :
  loop_iteration P s = (Next, s') -> t s' = ticks_add (t s) 500.
Proof.
  unfold loop_iteration, loop_body. unfold_script. settle.
  destruct (ticks_reply P (device s)) as [now d1]. settle.
  match goal with
  | |- context [scpi_reply P d1 ?c] =>
      destruct (scpi_reply P d1 c) as [[action|e] d2]; settle
  end; [|discriminate].
  match goal with
  | |- context [dispatch P action ?tn ?st] =>
      destruct (dispatch P action tn st) as [[[|]|e] s2] eqn:Hd
  end; intros H; inversion H; subst.
  now apply dispatch_next in Hd.
Qed.

(** A turn opens with the tick reading and the action query, whose
    timeout is computed from the deadline and that reading. *)
Lemma loop_iteration_query (s : state D) :
  let now := fst (ticks_reply P (device s)) in
  let timeout_ms := Z.max 10 (ticks_diff (ticks_add (t s) 500) now) in
  exists r rest,
    trace (snd (loop_iteration P s))
    = trace s ++ ETicks now :: EScpi (action_query timeout_ms) r :: rest.
Proof.
  unfold loop_iteration, loop_body. unfold_script. settle.
  destruct (ticks_reply P (device s)) as [now d1]. settle.
  match goal with
  | |- context [scpi_reply P d1 ?c] =>
      destruct (scpi_reply P d1 c) as [[action|e] d2]; settle
  end.
  - match goal with
    | |- context [dispatch P action ?tn ?st] =>
        destruct (tidy_grows LoopHandler neutral _ st
                    (dispatch_tidy action tn)) as (new & Htr);
          destruct (dispatch P action tn st) as [[f|e] s2]
    end; settle; simpl in Htr.
    + exists (Ok action), new. rewrite Htr, <- !app_assoc. reflexivity.
    + exists (Ok action), (new ++ [loop_error e]).
      rewrite Htr, <- !app_assoc. reflexivity.
  - exists (Raise e), [loop_error e]. rewrite <- !app_assoc. reflexivity.
Qed.

(** The loop, one turn longer. *)
Lemma main_loop_snoc (k : nat) (s : state D) :
  main_loop P (S k) s
  = match main_loop P k s with
    | (Next, s') => loop_iteration P s'
    | (Break, s') => (Break, s')
    end.
Proof.
  revert s. induction k as [|k IH]; intros s.
  - simpl. destruct (loop_iteration P s) as [[|] s']; reflexivity.
  - change (main_loop P (S (S k)) s)
      with (match loop_iteration P s with
            | (Break, s') => (Break, s')
            | (Next, s') => main_loop P (S k) s'
            end).
    change (main_loop P (S k) s)
      with (match loop_iteration P s with
            | (Break, s') => (Break, s')
            | (Next, s') => main_loop P k s'
            end).
    destruct (loop_iteration P s) as [[|] s1]; [apply IH|reflexivity].
Qed.

Lemma main_loop_running_before (n k : nat) (s : state D) :
  fst (main_loop P n s) = Next -> (k <= n)%nat -> fst (main_loop P k s) = Next.
Proof.
  intros Hn Hk. induction Hk as [|n Hk IH]; [exact Hn|].
  apply IH. rewrite main_loop_snoc in Hn.
  destruct (main_loop P n s) as [[|] s']; [reflexivity|exact Hn].
Qed.

Lemma main_loop_step_deadline (k : nat) (s : state D) :
  fst (main_loop P (S k) s) = Next ->
  t (snd (main_loop P (S k) s)) = ticks_add (t (snd (main_loop P k s))) 500.
Proof.
  rewrite main_loop_snoc.
  destruct (main_loop P k s) as [[|] sk]; [|discriminate]. simpl.
  destruct (loop_iteration P sk) as [[|] s'] eqn:Hit; [|discriminate].
  intros _. simpl. now apply loop_iteration_next.
Qed.

Lemma main_loop_deadline (n : nat) (s : state D) :
  fst (main_loop P n s) = Next ->
  t (snd (main_loop P n s)) = deadline n (t s).
Proof.
  induction n as [|n IH]; intros Hn; [reflexivity|].
  rewrite (main_loop_step_deadline n s Hn).
  rewrite IH by (apply (main_loop_running_before (S n)); [exact Hn|lia]).
  reflexivity.
Qed.

(** *** Leaving the loop *)

Lemma loop_body_raises_break (fuel : nat) (s s' : state D) (e : exn) :
  loop_body P s = (Raise e, s') ->
  main_loop P (S fuel) s = (Break, record D (device s') (loop_error e) s').
Proof. intros H. simpl. unfold loop_iteration. now rewrite H. Qed.

Lemma close_breaks (fuel : nat) (s : state D) (now : Z) (d1 d2 : D) :
  ticks_reply P (device s) = (now, d1) ->
  scpi_reply P d1
    (action_query (Z.max 10 (ticks_diff (ticks_add (t s) 500) now)))
  = (Ok (VStr "close_dialog"), d2) ->
  fst (main_loop P (S fuel) s) = Break
  /\ globals (snd (main_loop P (S fuel) s)) = globals s.
Proof.
  intros Hticks Hquery. simpl. unfold loop_iteration, loop_body.
  unfold_script. settle. rewrite Hticks. settle. rewrite Hquery.
  split; reflexivity.
Qed.

Lemma cleanup_spec (s : state D) :
  fst (cleanup P s) = Ok tt
  /\ exists r1 rest,
       trace (snd (cleanup P s))
       = trace s ++ EPrint [[Lit "Cleaning up..."]]
                 :: EScpi [Lit "INST:NSEL 2"] r1 :: rest
       /\ forall a, r1 = Ok a ->
                    exists r2 rest', rest = EScpi [Lit "OUTP 0"] r2 :: rest'.
Proof.
  unfold cleanup. unfold_script. settle.
  repeat next_answer; (split; [reflexivity|]); eexists; eexists;
    (split; [rewrite <- ?app_assoc; simpl; reflexivity|]);
    intros a' Ha'; try discriminate; eexists; eexists; reflexivity.
Qed.



End Discipline.

(** A bench whose source reads NaN: a float like another for [getU]. *)
Definition nan_source : bench :=
  {| source := [Ok NaN];
     actions := [];
     entries := [];
     clock := 0%Z;
     step := 500%Z |}.

(** C2: the clamp of lines 231-234 ("Clamp to device limits (0-40V)")
    misses one case.  When the sum of the source reading and the offset
    is NaN, and only then, both comparisons fail and the target is NaN,
    which [follow] stores and commands on channel 2 like any other: with
    a NaN reading the running loop calls setU(2, nan).  Every other sum
    is clamped as the claim says: a finite sum q gives clamp(q, 0, 40),
    which grows with q, plus infinity gives 40 and minus infinity 0, so
    the target lies in [0, 40]; readings 1.0, 2.0, 3.0 with offset 0.5
    give the targets 1.5, 2.5, 3.5. *)
Theorem nan_reading_passes_the_clamp :
  (forall round v o,
      fadd round v o = NaN <-> follower_target round v o = NaN)
  /\ (forall round o, follower_target round NaN o = NaN)
  /\ (forall (D : Type) (P : platform D) (s : state D) (v : pyfloat) a d1,
         running s = true ->
         scpi_reply P (device s) [Lit "INST:NSEL 2"] = (Ok a, d1) ->
         exists r,
           trace (snd (follow P v s))
           = trace s
             ++ [EScpi [Lit "INST:NSEL 2"] (Ok a);
                 ESetU 2 (follower_target (round P) v (voltage_offset s)) r]
           /\ target_voltage_set (snd (follow P v s))
              = follower_target (round P) v (voltage_offset s))
  /\ commanded
       (trace (snd (main_loop sim 1 (session true (1 # 2) 0 nan_source))))
     = [NaN]
  /\ (forall round v o,
         fadd round v o <> NaN -> within 0 40 (follower_target round v o))
  /\ (forall round v o q,
         fadd round v o = Num q ->
         exists c, follower_target round v o = Num c /\ c == clamp 0 40 q)
  /\ (forall q q' : Q, q <= q' -> clamp 0 40 q <= clamp 0 40 q')
  /\ (forall round v o negative,
         fadd round v o = Inf negative ->
         follower_target round v o = Num (if negative then 0 else 40))
  /\ commanded (trace (snd (main_loop sim 3 (session true (1 # 2) 0 ramp))))
     = [Num (3 # 2); Num (5 # 2); Num (7 # 2)].
Proof.
  split; [exact follower_target_nan|].
  split; [intros round o; now apply follower_target_nan|].
  split.
  { intros D P s v a d1 Hon Hsel.
    rewrite (follow_running D P s v a d1 Hon Hsel). simpl.
    eexists. split; reflexivity. }
  split; [vm_compute; reflexivity|].
  split.
  { intros round v o Hsum.
    destruct (follower_target_range round v o) as [H|H]; [|exact H].
    now apply follower_target_nan in H. }
  split; [exact follower_target_clamp|].
  split.
  { intros q q' Hle. unfold clamp.
    apply Q.max_le_compat_l, Q.min_le_compat_l, Hle. }
  split; [|vm_compute; reflexivity].
  intros round v o negative Hsum.
  unfold follower_target, fgt. rewrite Hsum. now destruct negative.
Qed.

(** C9: [startControl] leaves the session with the running flag set and
    everything else as it was, so it changes nothing in a session that is
    already running, and applying it twice gives the session that applying
    it once gives; what it does outside is an initial part of the enable
    sequence (all of it when no command fails) and nothing else.  The same
    holds for [stopControl] with the flag cleared and the disable
    sequence. *)
Theorem start_stop_idempotent (D : Type) (P : platform D) (s : state D) :
  (globals (snd (startControl P s))
   = (true, voltage_offset s, current_limit s, target_voltage_set s)
   /\ (running s = true -> globals (snd (startControl P s)) = globals s)
   /\ globals (snd (twice (startControl P) s))
      = globals (snd (startControl P s))
   /\ (exists n, map act_of (since s (snd (startControl P s)))
                 = firstn n (start_acts (current_limit s)))
   /\ (fst (startControl P s) = Ok tt ->
       map act_of (since s (snd (startControl P s)))
       = start_acts (current_limit s)))
  /\ (globals (snd (stopControl P s))
      = (false, voltage_offset s, current_limit s, target_voltage_set s)
      /\ (running s = false -> globals (snd (stopControl P s)) = globals s)
      /\ globals (snd (twice (stopControl P) s))
         = globals (snd (stopControl P s))
      /\ (exists n, map act_of (since s (snd (stopControl P s)))
                    = firstn n stop_acts)
      /\ (fst (stopControl P s) = Ok tt ->
          map act_of (since s (snd (stopControl P s))) = stop_acts)).
Proof.
  split.
  - destruct (startControl_spec D P s) as (Hg & _ & _ & new & n & Htr & Hn & Hall).
    split; [exact Hg|]. split.
    { intros Hon. rewrite Hg. unfold globals. now rewrite Hon. }
    split.
    { destruct (twice_state D (startControl P) s) as [E|E]; rewrite E;
        [|reflexivity].
      destruct (startControl_spec D P (snd (startControl P s)))
        as (Hg' & _).
      rewrite Hg', Hg. unfold globals in Hg. now inversion Hg. }
    rewrite (since_app D _ _ _ Htr). split; [now exists n|exact Hall].
  - destruct (stopControl_spec D P s) as (Hg & _ & _ & new & n & Htr & Hn & Hall).
    split; [exact Hg|]. split.
    { intros Hoff. rewrite Hg. unfold globals. now rewrite Hoff. }
    split.
    { destruct (twice_state D (stopControl P) s) as [E|E]; rewrite E;
        [|reflexivity].
      destruct (stopControl_spec D P (snd (stopControl P s)))
        as (Hg' & _).
      rewrite Hg', Hg. unfold globals in Hg. now inversion Hg. }
    rewrite (since_app D _ _ _ Htr). split; [now exists n|exact Hall].
Qed.

(** C9 on the bench: a second start in a running session, a second stop
    in a stopped one. *)
Lemma start_stop_idempotent_witness :
  globals (snd (startControl sim (session true (1 # 2) 0 ramp)))
  = globals (session true (1 # 2) 0 ramp)
  /\ globals (snd (stopControl sim (session false (1 # 2) 0 ramp)))
     = globals (session false (1 # 2) 0 ramp).
Proof.
  split.
  - destruct (start_stop_idempotent bench sim (session true (1 # 2) 0 ramp))
      as [(_ & Hkept & _) _].
    apply Hkept. reflexivity.
  - destruct (start_stop_idempotent bench sim (session false (1 # 2) 0 ramp))
      as [_ (_ & Hkept & _)].
    apply Hkept. reflexivity.
Defined.

(** C8, as stated, fails: the script itself rejects nothing.  With 5 V
    at the source the prompt is given the bounds -5 and 35; when it hands
    back 100, a value outside them, that value replaces the offset
    0.5. *)
Lemma out_of_range_entry_is_stored :
  In (EScpi (offset_prompt (Num (- (5))) (Num 35) (Num (1 # 2)))
            (Ok (VFloat (Num 100))))
     (trace (snd (configVoltageOffset sim
                    (session false (1 # 2) 0
                             (prompted (Ok (VFloat (Num 100))))))))
  /\ voltage_offset
       (snd (configVoltageOffset sim
               (session false (1 # 2) 0 (prompted (Ok (VFloat (Num 100)))))))
     = Num 100
  /\ ~ within (- (5)) 35 (Num 100)
  /\ Num 100
     <> voltage_offset
          (session false (1 # 2) 0 (prompted (Ok (VFloat (Num 100))))).
Proof.
  split; [vm_compute; tauto|]. split; [vm_compute; reflexivity|].
  split; [|discriminate].
  intros [_ H]. apply Qle_bool_iff in H. discriminate H.
Qed.

(** C8, amended: the handler reads the source, computes the bounds -v
    and 40-v and hands them to the prompt with the current offset; the
    number the prompt returns becomes the offset as [float()] gives it,
    unchecked, and a cancelled prompt or a value [float()] refuses leaves
    the offset as it was; so does a failed prompt, and a failed reading,
    after which nothing is asked.  The handler never raises and changes
    nothing else of the session. *)
Theorem offset_prompt_stores_entry (D : Type) (P : platform D)
        (s : state D) :
  let s' := snd (configVoltageOffset P s) in
  fst (configVoltageOffset P s) = Ok tt
  /\ running s' = running s
  /\ current_limit s' = current_limit s
  /\ target_voltage_set s' = target_voltage_set s
  /\ (forall (v : pyfloat) (d1 d2 : D) (answer : res value),
         getU_reply P (device s) 1 = (Ok v, d1) ->
         scpi_reply P d1
           (offset_prompt (fneg v) (fsub (round P) (Num 40) v)
                          (voltage_offset s))
         = (answer, d2) ->
         (exists rest,
             since s s'
             = EPrint [[Lit "Config Voltage Offset"]]
               :: EGetU 1 (Ok v)
               :: EScpi (offset_prompt (fneg v) (fsub (round P) (Num 40) v)
                                       (voltage_offset s))
                        answer
               :: rest)
         /\ voltage_offset s'
            = match answer with
              | Ok VNone => voltage_offset s
              | Ok entered =>
                  match float_value P entered with
                  | Ok x => x
                  | Raise _ => voltage_offset s
                  end
              | Raise _ => voltage_offset s
              end)
  /\ (forall (e : exn) (d1 : D),
         getU_reply P (device s) 1 = (Raise e, d1) ->
         since s s'
         = [EPrint [[Lit "Config Voltage Offset"]];
            EGetU 1 (Raise e);
            caught "Offset config ERROR:" e]
         /\ voltage_offset s' = voltage_offset s).
Proof.
  intros s'. split; [apply configVoltageOffset_never_raises|].
  assert (Hkept : running s' = running s
                  /\ current_limit s' = current_limit s
                  /\ target_voltage_set s' = target_voltage_set s).
  { subst s'. unfold configVoltageOffset. unfold_script. settle.
    repeat next_answer; try (now repeat split).
    destruct (is_none a0); settle; [now repeat split|].
    destruct (float_value P a0); settle; now repeat split. }
  destruct Hkept as (Hrun & Hlim & Htgt).
  split; [exact Hrun|]. split; [exact Hlim|]. split; [exact Htgt|].
  split.
  - intros v d1 d2 answer HU Hprompt.
    destruct (configVoltageOffset_spec D P s v d1 d2 answer HU Hprompt)
      as ([rest Htr] & _ & _ & _ & Hoff).
    split; [exists rest; now apply since_app|exact Hoff].
  - intros e d1 HU. subst s'.
    unfold configVoltageOffset. unfold_script. settle. rewrite HU. settle.
    split; [|reflexivity].
    apply since_app. settle. rewrite <- !app_assoc. reflexivity.
Qed.

(** C8, amended, on the bench: with 5 V at the source the entered 3 V
    replaces the offset 0.5 V. *)
Lemma offset_prompt_stores_entry_witness :
  voltage_offset
    (snd (configVoltageOffset sim
            (session false (1 # 2) 0 (prompted (Ok (VFloat (Num 3)))))))
  = Num 3.
Proof.
  destruct (offset_prompt_stores_entry bench sim
              (session false (1 # 2) 0 (prompted (Ok (VFloat (Num 3))))))
    as (_ & _ & _ & _ & Hstore & _).
  destruct (Hstore (Num 5)
              {| source := []; actions := []; entries := [Ok (VFloat (Num 3))];
                 clock := 0%Z; step := 500%Z |}
              {| source := []; actions := []; entries := [];
                 clock := 0%Z; step := 500%Z |}
              (Ok (VFloat (Num 3))) eq_refl eq_refl)
    as (_ & Hoffset).
  exact Hoffset.
Defined.

(** *** Errors inside the loop *)




(** *** Loop timing *)

(** C7: a turn of the loop reads the tick counter and waits, in its action
    query, max(10, deadline - now) ms, the deadline being the previous one
    plus 500 ms in tick arithmetic; a turn that goes on leaves that
    deadline as the new one, exactly 500 ms after the old.  Over any
    number of turns the deadline depends on the first one and the count
    alone, never on the clock readings: after n turns it lies 500 n ms
    after the start (n = 100: 50000 ms), and consecutive deadlines differ
    by exactly 500 ms. *)
Theorem deadlines_advance_by_period (D : Type) (P : platform D) :
  (forall s : state D,
      let now := fst (ticks_reply P (device s)) in
      let next := ticks_add (t s) 500 in
      (exists r rest,
          since s (snd (loop_iteration P s))
          = ETicks now
            :: EScpi (action_query (Z.max 10 (ticks_diff next now))) r
            :: rest)
      /\ (fst (loop_iteration P s) = Next ->
          t (snd (loop_iteration P s)) = next
          /\ ticks_diff (t (snd (loop_iteration P s))) (t s) = 500%Z))
  /\ (forall (n : nat) (s : state D),
         fst (main_loop P n s) = Next ->
         t (snd (main_loop P n s)) = deadline n (t s)
         /\ (forall k, (k < n)%nat ->
               ticks_diff (t (snd (main_loop P (S k) s)))
                          (t (snd (main_loop P k s))) = 500%Z)
         /\ ((500 * Z.of_nat n < TICKS_PERIOD / 2)%Z ->
             ticks_diff (t (snd (main_loop P n s))) (t s)
             = (500 * Z.of_nat n)%Z))
  /\ (forall s : state D,
         fst (main_loop P 100 s) = Next ->
         ticks_diff (t (snd (main_loop P 100 s))) (t s) = 50000%Z).
Proof.
  assert (Hsteps : forall (n : nat) (s : state D),
             fst (main_loop P n s) = Next ->
             (500 * Z.of_nat n < TICKS_PERIOD / 2)%Z ->
             ticks_diff (t (snd (main_loop P n s))) (t s)
             = (500 * Z.of_nat n)%Z).
  { intros n s Hn Hsmall. rewrite (main_loop_deadline D P n s Hn).
    apply ticks_diff_congruent; [apply deadline_mod|lia]. }
  split; [|split].
  - intros s now next. split.
    + destruct (loop_iteration_query D P s) as (r & rest & Htr).
      exists r, rest. now apply since_app.
    + intros Hnext.
      assert (Ht : t (snd (loop_iteration P s)) = next).
      { apply (loop_iteration_next D P s).
        destruct (loop_iteration P s) as [f s']. simpl in *. now subst f. }
      split; [exact Ht|]. rewrite Ht. now apply ticks_diff_add.
  - intros n s Hn. split; [now apply main_loop_deadline|]. split.
    + intros k Hk.
      rewrite (main_loop_step_deadline D P k s).
      * now apply ticks_diff_add.
      * apply (main_loop_running_before D P n); [exact Hn|lia].
    + now apply Hsteps.
  - intros s Hn. now apply (Hsteps 100%nat s Hn).
Qed.

(** C7 on the bench: a hundred turns without any action. *)
Lemma deadlines_advance_by_period_witness :
  ticks_diff (t (snd (main_loop sim 100 (session true (1 # 2) 0 ramp)))) 0
  = 50000%Z.
Proof.
  destruct (deadlines_advance_by_period bench sim) as (_ & _ & Hundred).
  apply (Hundred (session true (1 # 2) 0 ramp)).
  vm_compute. reflexivity.
Defined.

(** *** Leaving the loop *)

(** C6: whenever the loop is left, the script goes on to its cleanup and
    reaches its last line: after the line that announces the cleanup it
    selects channel 2 and, unless that command fails, sends OUTP 0 next.
    The loop is left by the close action, whatever the running flag,
    which the close leaves as it was, and by any exception that reaches
    the loop's handler. *)
Theorem output_disabled_on_exit (D : Type) (P : platform D) :
  (forall (fuel : nat) (d : D) (s1 s2 : state D),
      startup P (initial P d) = (Ok true, s1) ->
      main_loop P fuel s1 = (Break, s2) ->
      fst (script P fuel d) = Finished
      /\ exists r1 rest,
           trace (snd (script P fuel d))
           = trace s2 ++ EPrint [[Lit "Cleaning up..."]]
                      :: EScpi [Lit "INST:NSEL 2"] r1 :: rest
           /\ forall a, r1 = Ok a ->
                        exists r2 rest',
                          rest = EScpi [Lit "OUTP 0"] r2 :: rest')
  /\ (forall (fuel : nat) (s : state D) (now : Z) (d1 d2 : D),
         ticks_reply P (device s) = (now, d1) ->
         scpi_reply P d1
           (action_query (Z.max 10 (ticks_diff (ticks_add (t s) 500) now)))
         = (Ok (VStr "close_dialog"), d2) ->
         fst (main_loop P (S fuel) s) = Break
         /\ globals (snd (main_loop P (S fuel) s)) = globals s)
  /\ (forall (fuel : nat) (s s' : state D) (e : exn),
         loop_body P s = (Raise e, s') ->
         fst (main_loop P (S fuel) s) = Break).
Proof.
  split; [|split].
  - intros fuel d s1 s2 Hstart Hloop. unfold script.
    rewrite Hstart, Hloop.
    destruct (cleanup_spec D P s2) as (Hok & r1 & rest & Htr & Hout).
    destruct (cleanup P s2) as [r s3]. simpl in *. subst r. simpl.
    split; [reflexivity|]. now exists r1, rest.
  - intros fuel s now d1 d2. apply close_breaks.
  - intros fuel s s' e Hraise.
    now rewrite (loop_body_raises_break D P fuel s s' e Hraise).
Qed.

(** C6 on the bench: started, then closed; the run ends with the output
    switched off. *)
Lemma output_disabled_on_exit_witness :
  fst (script sim 5 visit) = Finished
  /\ In (EScpi [Lit "OUTP 0"] (Ok VNone)) (trace (snd (script sim 5 visit))).
Proof.
  destruct (output_disabled_on_exit bench sim) as (Hexit & _ & _).
  destruct (Hexit 5%nat visit
                  (snd (startup sim (initial sim visit)))
                  (snd (main_loop sim 5 (snd (startup sim (initial sim visit))))))
    as (Hend & r1 & rest & Htr & Hout).
  - vm_compute. reflexivity.
  - vm_compute. reflexivity.
  - split; [exact Hend|]. vm_compute. tauto.
Defined.

(** *** Invariants of the loop *)

(** The action can be an answer of the instrument to an action query. *)
Definition possible {D : Type} (P : platform D) (action : value) : Prop :=
  exists d n d', scpi_reply P d (action_query n) = (Ok action, d').

(** [inv] does not look at the instrument or the trace. *)
Definition stable {D : Type} (inv : state D -> Prop) : Prop :=
  forall s d ev, inv s -> inv (record D d ev s).

(** From a state in [inv], the computation adds events that all satisfy
    [ok] and ends in a state in [inv], whether it returns or raises. *)
Definition holds {D A : Type} (inv : state D -> Prop) (ok : event -> Prop)
           (m : M D A) : Prop :=
  forall s,
    inv s ->
    exists new,
      trace (snd (m s)) = trace s ++ new
      /\ Forall ok new
      /\ inv (snd (m s)).

(** Every voltage commanded is on channel 2 and, unless it is NaN,
    within the device range. *)
Definition in_range (ev : event) : Prop :=
  match ev with
  | ESetU ch v _ => ch = 2%Z /\ (v = NaN \/ within 0 40 v)
  | _ => True
  end.

(** Every action query waits at least 10 ms. *)
Definition patient (ev : event) : Prop :=
  match ev with
  | EScpi cmd _ =>
      starts_like "DISP:DIALog:ACTIon? " cmd = true ->
      exists timeout_ms, cmd = action_query timeout_ms /\ (10 <= timeout_ms)%Z
  | _ => True
  end.

(** Nothing that drives the output: no voltage set, no OUTP 1. *)
Definition passive (ev : event) : Prop :=
  match ev with
  | ESetU _ _ _ => False
  | EScpi cmd _ => cmd <> [Lit "OUTP 1"]
  | _ => True
  end.

Section Invariants.

Variable D : Type.
Variable P : platform D.
Variable inv : state D -> Prop.
Variable ok : event -> Prop.
Hypothesis inv_stable : stable inv.

Lemma holds_ret {A : Type} (a : A) : holds inv ok (ret D a).
Proof.
  intros s Hs. exists []. simpl. rewrite app_nil_r. auto.
Qed.

Lemma holds_gets {A : Type} (f : state D -> A) : holds inv ok (gets D f).
Proof.
  intros s Hs. exists []. simpl. rewrite app_nil_r. auto.
Qed.

Lemma holds_float (v : value) : holds inv ok (float D P v).
Proof.
  intros s Hs. exists []. unfold float. simpl. rewrite app_nil_r. auto.
Qed.

Lemma holds_modify (f : state D -> state D) :
  (forall s, inv s -> inv (f s)) -> (forall s, trace (f s) = trace s) ->
  holds inv ok (modify D f).
Proof.
  intros Hinv Htr s Hs. exists []. simpl. rewrite app_nil_r, Htr. auto.
Qed.

Lemma holds_print (args : list text) :
  ok (EPrint args) -> holds inv ok (print D args).
Proof.
  intros Hok s Hs. exists [EPrint args]. simpl.
  split; [reflexivity|]. split; [now constructor|now apply inv_stable].
Qed.

Lemma holds_scpi (cmd : text) :
  (forall r, ok (EScpi cmd r)) -> holds inv ok (scpi D P cmd).
Proof.
  intros Hok s Hs. unfold scpi.
  destruct (scpi_reply P (device s) cmd) as [r d].
  exists [EScpi cmd r]. simpl.
  split; [reflexivity|]. split; [now constructor|now apply inv_stable].
Qed.

Lemma holds_getU (ch : Z) :
  (forall r, ok (EGetU ch r)) -> holds inv ok (getU D P ch).
Proof.
  intros Hok s Hs. unfold getU.
  destruct (getU_reply P (device s) ch) as [r d].
  exists [EGetU ch r]. simpl.
  split; [reflexivity|]. split; [now constructor|now apply inv_stable].
Qed.

Lemma holds_getI (ch : Z) :
  (forall r, ok (EGetI ch r)) -> holds inv ok (getI D P ch).
Proof.
  intros Hok s Hs. unfold getI.
  destruct (getI_reply P (device s) ch) as [r d].
  exists [EGetI ch r]. simpl.
  split; [reflexivity|]. split; [now constructor|now apply inv_stable].
Qed.

Lemma holds_setU (ch : Z) (v : pyfloat) :
  (forall r, ok (ESetU ch v r)) -> holds inv ok (setU D P ch v).
Proof.
  intros Hok s Hs. unfold setU.
  destruct (setU_reply P (device s) ch v) as [r d].
  exists [ESetU ch v r]. simpl.
  split; [reflexivity|]. split; [now constructor|now apply inv_stable].
Qed.

Lemma holds_ticks : (forall n, ok (ETicks n)) -> holds inv ok (ticks_ms D P).
Proof.
  intros Hok s Hs. unfold ticks_ms.
  destruct (ticks_reply P (device s)) as [now d].
  exists [ETicks now]. simpl.
  split; [reflexivity|]. split; [now constructor|now apply inv_stable].
Qed.

Lemma holds_bind {A B : Type} (m : M D A) (k : A -> M D B) :
  holds inv ok m -> (forall a, holds inv ok (k a)) -> holds inv ok (bind m k).
Proof.
  intros Hm Hk s Hs. destruct (Hm s Hs) as (n1 & Htr1 & Hok1 & Hinv1).
  unfold bind. destruct (m s) as [[a|e] s1]; simpl in *.
  - destruct (Hk a s1 Hinv1) as (n2 & Htr2 & Hok2 & Hinv2).
    exists (n1 ++ n2). rewrite Htr2, Htr1, app_assoc.
    split; [reflexivity|]. split; [now apply Forall_app|exact Hinv2].
  - exists n1. auto.
Qed.

(** The continuation of a command only meets answers of the platform. *)
Lemma holds_scpi_bind {B : Type} (cmd : text) (k : value -> M D B) :
  (forall r, ok (EScpi cmd r)) ->
  (forall a d d', scpi_reply P d cmd = (Ok a, d') -> holds inv ok (k a)) ->
  holds inv ok (bind (scpi D P cmd) k).
Proof.
  intros Hok Hk s Hs. unfold bind, scpi.
  destruct (scpi_reply P (device s) cmd) as [[a|e] d] eqn:Hreply.
  - assert (Hs1 : inv (record D d (EScpi cmd (Ok a)) s))
      by now apply inv_stable.
    destruct (Hk a _ _ Hreply _ Hs1) as (n2 & Htr2 & Hok2 & Hinv2).
    exists (EScpi cmd (Ok a) :: n2). rewrite Htr2. simpl.
    rewrite <- app_assoc. split; [reflexivity|].
    split; [constructor; auto|exact Hinv2].
  - exists [EScpi cmd (Raise e)]. simpl.
    split; [reflexivity|]. split; [now constructor|now apply inv_stable].
Qed.

Lemma holds_try {A : Type} (m : M D A) (h : exn -> M D A) :
  holds inv ok m -> (forall e, holds inv ok (h e)) ->
  holds inv ok (try_except D m h).
Proof.
  intros Hm Hh s Hs. destruct (Hm s Hs) as (n1 & Htr1 & Hok1 & Hinv1).
  unfold try_except. destruct (m s) as [[a|e] s1]; simpl in *.
  - exists n1. auto.
  - destruct (Hh e s1 Hinv1) as (n2 & Htr2 & Hok2 & Hinv2).
    exists (n1 ++ n2). rewrite Htr2, Htr1, app_assoc.
    split; [reflexivity|]. split; [now apply Forall_app|exact Hinv2].
Qed.

(** The loop keeps what its dispatch keeps. *)
Lemma loop_body_holds :
  (forall n, ok (ETicks n)) ->
  (forall n r, (10 <= n)%Z -> ok (EScpi (action_query n) r)) ->
  (forall action t_next,
      possible P action -> holds inv ok (dispatch P action t_next)) ->
  holds inv ok (loop_body P).
Proof.
  intros Hticks Hquery Hdispatch. unfold loop_body.
  apply holds_bind; [apply holds_gets|intros t0].
  apply holds_bind; [now apply holds_ticks|intros now].
  apply holds_scpi_bind; [intros r; apply Hquery; apply Z.le_max_l|].
  intros action d d' Hreply. apply Hdispatch. unfold possible. eauto.
Qed.

Lemma main_loop_holds :
  (forall n, ok (ETicks n)) ->
  (forall n r, (10 <= n)%Z -> ok (EScpi (action_query n) r)) ->
  (forall e, ok (loop_error e)) ->
  (forall action t_next,
      possible P action -> holds inv ok (dispatch P action t_next)) ->
  forall (fuel : nat) (s : state D),
    inv s ->
    exists new,
      trace (snd (main_loop P fuel s)) = trace s ++ new
      /\ Forall ok new
      /\ inv (snd (main_loop P fuel s)).
Proof.
  intros Hticks Hquery Herror Hdispatch fuel.
  induction fuel as [|fuel IH]; intros s Hs.
  - exists []. simpl. rewrite app_nil_r. auto.
  - simpl. unfold loop_iteration.
    destruct (loop_body_holds Hticks Hquery Hdispatch s Hs)
      as (n1 & Htr1 & Hok1 & Hinv1).
    destruct (loop_body P s) as [[[|]|e] s1]; simpl in *.
    + destruct (IH s1 Hinv1) as (n2 & Htr2 & Hok2 & Hinv2).
      exists (n1 ++ n2). rewrite Htr2, Htr1, app_assoc.
      split; [reflexivity|]. split; [now apply Forall_app|exact Hinv2].
    + exists n1. auto.
    + exists (n1 ++ [loop_error e]). rewrite Htr1, app_assoc.
      split; [reflexivity|]. split.
      * apply Forall_app. split; [exact Hok1|]. constructor; auto.
      * now apply inv_stable.
Qed.

End Invariants.

(** One rule of the invariant discipline; [st] proves stability, [it]
    solves the obligations on states and [ot] those on events. *)
Ltac holds_step st it ot :=
  lazymatch goal with
  | |- holds _ _ (bind _ _) => apply holds_bind; [|intros]
  | |- holds _ _ (try_except _ _ _) => apply holds_try; [|intros]
  | |- holds _ _ (ret _ _) => apply holds_ret
  | |- holds _ _ (gets _ _) => apply holds_gets
  | |- holds _ _ (float _ _ _) => apply holds_float
  | |- holds _ _ (modify _ _) =>
      apply holds_modify; [intros ? ?; it|intros; reflexivity]
  | |- holds _ _ (print _ _) => apply holds_print; [exact st|ot]
  | |- holds _ _ (scpi _ _ _) => apply holds_scpi; [exact st|intros; ot]
  | |- holds _ _ (getU _ _ _) => apply holds_getU; [exact st|intros; ot]
  | |- holds _ _ (getI _ _ _) => apply holds_getI; [exact st|intros; ot]
  | |- holds _ _ (setU _ _ _ _) => apply holds_setU; [exact st|intros; ot]
  | |- holds _ _ (ticks_ms _ _) => apply holds_ticks; [exact st|intros; ot]
  | |- holds _ _ (if ?c then _ else _) => destruct c
  | |- holds _ _ (let '(_, _) := ?x in _) => destruct x
  end.

(** The discipline, through every function the dispatch can reach. *)
Ltac holds_auto st it ot :=
  unfold dispatch, refresh, report, follow, updateDisplay, startControl,
    stopControl, configVoltageOffset, configCurrentLimit;
  repeat holds_step st it ot.

Section Safety.

Variable D : Type.
Variable P : platform D.

Definition always (s : state D) : Prop := True.

Lemma always_stable : stable always.
Proof. intros s d ev _. exact I. Qed.

Lemma dispatch_in_range (action : value) (t_next : Z) :
  holds always in_range (dispatch P action t_next).
Proof.
  holds_auto always_stable ltac:(exact I)
    ltac:(first [exact I
                | split; [reflexivity|apply follower_target_range]]).
Qed.

Lemma dispatch_patient (action : value) (t_next : Z) :
  holds always patient (dispatch P action t_next).
Proof.
  holds_auto always_stable ltac:(exact I)
    ltac:(first [exact I | intros Hhead; discriminate Hhead]).
Qed.

End Safety.

(** X12: however long the loop runs and whatever fails, every voltage
    it commands is on channel 2 and is never a number outside [0, 40] V,
    nor an infinity: it is a number within [0, 40], or NaN (which the
    comparisons of the clamp let through). *)
Theorem commanded_voltages_in_range (D : Type) (P : platform D)
        (fuel : nat) (s : state D) (ch : Z) (v : pyfloat) (r : res unit) :
  In (ESetU ch v r) (since s (snd (main_loop P fuel s))) ->
  ch = 2%Z /\ (v = NaN \/ within 0 40 v).
Proof.
  destruct (main_loop_holds D P (always D) in_range (always_stable D)
              (fun _ => I) (fun _ _ _ => I) (fun _ => I)
              (fun action t_next _ => dispatch_in_range D P action t_next)
              fuel s I)
    as (new & Htr & Hok & _).
  rewrite (since_app D _ _ _ Htr). intros Hin.
  rewrite Forall_forall in Hok. exact (Hok _ Hin).
Qed.

Lemma commanded_voltages_in_range_witness :
  2%Z = 2%Z /\ (Num (3 # 2) = NaN \/ within 0 40 (Num (3 # 2))).
Proof.
  apply (commanded_voltages_in_range bench sim 1 (session true (1 # 2) 0 ramp)
           2 (Num (3 # 2)) (Ok tt)).
  vm_compute. tauto.
Defined.

(** X13: every action query the loop sends carries a timeout of at least
    10 ms, also when the deadline has already passed. *)
Theorem action_query_waits_at_least_10ms (D : Type) (P : platform D)
        (fuel : nat) (s : state D) (cmd : text) (r : res value) :
  In (EScpi cmd r) (since s (snd (main_loop P fuel s))) ->
  starts_like "DISP:DIALog:ACTIon? " cmd = true ->
  exists timeout_ms, cmd = action_query timeout_ms /\ (10 <= timeout_ms)%Z.
Proof.
  assert (Hquery : forall n r0, (10 <= n)%Z ->
                                patient (EScpi (action_query n) r0)).
  { intros n r0 Hn _. now exists n. }
  destruct (main_loop_holds D P (always D) patient (always_stable D)
              (fun _ => I) Hquery (fun _ => I)
              (fun action t_next _ => dispatch_patient D P action t_next)
              fuel s I)
    as (new & Htr & Hok & _).
  rewrite (since_app D _ _ _ Htr). intros Hin.
  rewrite Forall_forall in Hok. exact (Hok _ Hin).
Qed.

(** A bench whose clock has run far past every deadline. *)
Definition late : bench :=
  {| source := [Ok (Num 1)];
     actions := [];
     entries := [];
     clock := 90000%Z;
     step := 500%Z |}.

Lemma action_query_waits_at_least_10ms_witness :
  exists timeout_ms,
    action_query 10 = action_query timeout_ms /\ (10 <= timeout_ms)%Z.
Proof.
  apply (action_query_waits_at_least_10ms bench sim 1
           (session true (1 # 2) 0 late) (action_query 10) (Ok VNone)).
  - vm_compute. tauto.
  - reflexivity.
Defined.

(** *** What a stopped session never does, and what changes a setting *)

(** An instrument on which nobody presses anything: every command
    succeeds with no result, every reading is 1. *)
Definition idle : platform unit :=
  {| scpi_reply := fun d _ => (Ok VNone, d);
     getU_reply := fun d _ => (Ok (Num 1), d);
     getI_reply := fun d _ => (Ok (Num 1), d);
     setU_reply := fun d _ _ => (Ok tt, d);
     ticks_reply := fun d => (0%Z, d);
     float_of_str := fun _ => None;
     round := binary64 |}.

Lemma is_text_true (v : value) (name : string) :
  is_text v name = true -> v = VStr name.
Proof.
  destruct v; simpl; try discriminate.
  intros H. apply String.eqb_eq in H. now subst.
Qed.

Section Settings.

Variable D : Type.
Variable P : platform D.

(** The instrument never answers an action query with [name]. *)
Definition never_answers (name : string) : Prop :=
  forall d n d', scpi_reply P d (action_query n) <> (Ok (VStr name), d').

Lemma impossible_action (name : string) (action : value) :
  never_answers name -> possible P action -> is_text action name = false.
Proof.
  intros Hnever (d & n & d' & Hreply).
  destruct (is_text action name) eqn:E; [|reflexivity].
  apply is_text_true in E. subst action. now elim (Hnever d n d').
Qed.

Definition stopped (s : state D) : Prop := running s = false.

Lemma stopped_stable : stable stopped.
Proof. intros s d ev Hs. exact Hs. Qed.

Lemma follow_passive (v : pyfloat) : holds stopped passive (follow P v).
Proof.
  intros s Hs. rewrite (follow_stopped D P s v Hs). exists []. simpl.
  rewrite app_nil_r. auto.
Qed.

Lemma dispatch_stopped (action : value) (t_next : Z) :
  never_answers "start_control" -> possible P action ->
  holds stopped passive (dispatch P action t_next).
Proof.
  intros Hnever Hposs. unfold dispatch.
  rewrite (impossible_action "start_control" action Hnever Hposs).
  unfold refresh, report, updateDisplay, stopControl, configVoltageOffset,
    configCurrentLimit.
  repeat first
    [ apply follow_passive
    | holds_step stopped_stable
        ltac:(first [reflexivity | assumption])
        ltac:(first [exact I | discriminate]) ].
Qed.

Definition offset_is (q : pyfloat) (s : state D) : Prop :=
  voltage_offset s = q.

Definition limit_is (q : pyfloat) (s : state D) : Prop :=
  current_limit s = q.

Definition anything (ev : event) : Prop := True.

Lemma offset_is_stable (q : pyfloat) : stable (offset_is q).
Proof. intros s d ev Hs. exact Hs. Qed.

Lemma limit_is_stable (q : pyfloat) : stable (limit_is q).
Proof. intros s d ev Hs. exact Hs. Qed.

Lemma dispatch_keeps_offset (q : pyfloat) (action : value) (t_next : Z) :
  never_answers "config_voltage_offset" -> possible P action ->
  holds (offset_is q) anything (dispatch P action t_next).
Proof.
  intros Hnever Hposs. unfold dispatch.
  rewrite (impossible_action "config_voltage_offset" action Hnever Hposs).
  unfold refresh, report, follow, updateDisplay, startControl, stopControl,
    configCurrentLimit.
  repeat holds_step (offset_is_stable q)
    ltac:(assumption) ltac:(exact I).
Qed.

Lemma dispatch_keeps_limit (q : pyfloat) (action : value) (t_next : Z) :
  never_answers "config_current_limit" -> possible P action ->
  holds (limit_is q) anything (dispatch P action t_next).
Proof.
  intros Hnever Hposs. unfold dispatch.
  rewrite (impossible_action "config_current_limit" action Hnever Hposs).
  unfold refresh, report, follow, updateDisplay, startControl, stopControl,
    configVoltageOffset.
  repeat holds_step (limit_is_stable q)
    ltac:(assumption) ltac:(exact I).
Qed.

End Settings.

(** X14: as long as the instrument never reports the start action, a
    session that is stopped stays stopped and never drives the output:
    the loop sets no voltage and sends no OUTP 1, however long it runs
    and whatever else happens. *)
Theorem stopped_session_drives_nothing (D : Type) (P : platform D)
        (fuel : nat) (s : state D) :
  never_answers D P "start_control" ->
  running s = false ->
  running (snd (main_loop P fuel s)) = false
  /\ (forall ch v r,
         ~ In (ESetU ch v r) (since s (snd (main_loop P fuel s))))
  /\ (forall r,
         ~ In (EScpi [Lit "OUTP 1"] r) (since s (snd (main_loop P fuel s)))).
Proof.
  intros Hnever Hs.
  destruct (main_loop_holds D P (stopped D) passive (stopped_stable D)
              (fun _ => I)
              (fun n r _ (H : action_query n = [Lit "OUTP 1"]) =>
                 ltac:(discriminate H))
              (fun _ => I)
              (fun action t_next Hposs =>
                 dispatch_stopped D P action t_next Hnever Hposs)
              fuel s Hs)
    as (new & Htr & Hok & Hinv).
  rewrite (since_app D _ _ _ Htr). rewrite Forall_forall in Hok.
  split; [exact Hinv|]. split.
  - intros ch v r Hin. exact (Hok _ Hin).
  - intros r Hin. now apply (Hok _ Hin).
Qed.

Lemma stopped_session_drives_nothing_witness :
  running (snd (main_loop idle 20 (session false (1 # 2) 0 tt))) = false.
Proof.
  apply (stopped_session_drives_nothing unit idle 20
           (session false (1 # 2) 0 tt)).
  - intros d n d' H. discriminate H.
  - reflexivity.
Defined.

(** X15: the two settings change only through their prompts: as long as
    the instrument never reports the offset action the voltage offset
    stays what it was, and as long as it never reports the current-limit
    action the current limit stays what it was, over any number of turns
    and whatever fails. *)
Theorem settings_change_only_by_their_prompt (D : Type) (P : platform D)
        (fuel : nat) (s : state D) :
  (never_answers D P "config_voltage_offset" ->
   voltage_offset (snd (main_loop P fuel s)) = voltage_offset s)
  /\ (never_answers D P "config_current_limit" ->
      current_limit (snd (main_loop P fuel s)) = current_limit s).
Proof.
  split; intros Hnever.
  - destruct (main_loop_holds D P (offset_is D (voltage_offset s)) anything
                (offset_is_stable D _)
                (fun _ => I) (fun _ _ _ => I) (fun _ => I)
                (fun action t_next Hposs =>
                   dispatch_keeps_offset D P _ action t_next Hnever Hposs)
                fuel s eq_refl)
      as (_ & _ & _ & Hinv).
    exact Hinv.
  - destruct (main_loop_holds D P (limit_is D (current_limit s)) anything
                (limit_is_stable D _)
                (fun _ => I) (fun _ _ _ => I) (fun _ => I)
                (fun action t_next Hposs =>
                   dispatch_keeps_limit D P _ action t_next Hnever Hposs)
                fuel s eq_refl)
      as (_ & _ & _ & Hinv).
    exact Hinv.
Qed.

Lemma settings_change_only_by_their_prompt_witness :
  voltage_offset (snd (main_loop idle 20 (session true (1 # 2) 0 tt)))
  = Num (1 # 2).
Proof.
  destruct (settings_change_only_by_their_prompt unit idle 20
              (session true (1 # 2) 0 tt)) as [Hoffset _].
  apply Hoffset. intros d n d' H. discriminate H.
Defined.

(** *** The module check (lines 45-71, 166-170) *)

(** The events of the module check: printed lines and the four
    identification commands. *)
Definition identifying (ev : event) : Prop :=
  match ev with
  | EPrint _ => True
  | EScpi cmd _ =>
      cmd = [Lit "INST:NSEL 1"] \/ cmd = [Lit "SYST:CHAN:MODel?"]
      \/ cmd = [Lit "INST:NSEL 2"]
  | _ => False
  end.

(** An instrument whose two modules are of another model. *)
Definition foreign : platform unit :=
  {| scpi_reply := fun d _ => (Ok (VStr "DCM224"), d);
     getU_reply := fun d _ => (Ok (Num 1), d);
     getI_reply := fun d _ => (Ok (Num 1), d);
     setU_reply := fun d _ _ => (Ok tt, d);
     ticks_reply := fun d => (0%Z, d);
     float_of_str := fun _ => None;
     round := binary64 |}.

Section ModuleCheck.

Variable D : Type.
Variable P : platform D.

Lemma check_identifies :
  holds (always D) identifying (check_dcp405_modules D P).
Proof.
  unfold check_dcp405_modules.
  repeat holds_step (always_stable D) ltac:(exact I)
    ltac:(first [exact I | now left | now (right; left)
                | now (right; right)]).
Qed.

End ModuleCheck.

(** X16: the module check never raises; it answers True exactly when its
    four commands succeed and both model answers are texts that contain
    DCP405, and it leaves the session as it was. *)
Theorem module_check_passes_iff (D : Type) (P : platform D) (s : state D) :
  exists passed,
    fst (check_dcp405_modules D P s) = Ok passed
    /\ globals (snd (check_dcp405_modules D P s)) = globals s
    /\ (passed = true <->
        exists a1 m1 a2 m2 rest,
          since s (snd (check_dcp405_modules D P s))
          = EScpi [Lit "INST:NSEL 1"] (Ok a1)
            :: EScpi [Lit "SYST:CHAN:MODel?"] (Ok m1)
            :: EScpi [Lit "INST:NSEL 2"] (Ok a2)
            :: EScpi [Lit "SYST:CHAN:MODel?"] (Ok m2)
            :: rest
          /\ names_dcp405 m1 = true /\ names_dcp405 m2 = true).
Proof.
  unfold check_dcp405_modules, globals. unfold_script. settle.
  repeat next_answer;
    try (destruct (names_dcp405 a0 && names_dcp405 a2) eqn:Hnames; settle);
    eexists; (split; [reflexivity|]); (split; [reflexivity|]);
    (erewrite since_app by (settle; rewrite <- ?app_assoc; simpl; reflexivity));
    (split;
     [ intros Hpassed; try discriminate Hpassed
     | intros (a1' & m1 & a2' & m2 & rest & Heq & Hm1 & Hm2);
       inversion Heq; subst; try reflexivity;
       rewrite Hm1, Hm2 in Hnames; discriminate Hnames ]).
  apply andb_true_iff in Hnames. destruct Hnames as [Hm1 Hm2].
  do 5 eexists. split; [reflexivity|]. auto.
Qed.

(** X17: when the module check fails the script ends at once, before the
    OVP, the dialog and the loop: all it has sent to the instrument are
    the identification commands of the check. *)
Theorem failed_module_check_ends_script (D : Type) (P : platform D)
        (fuel : nat) (d : D) :
  fst (check_dcp405_modules D P (initial P d)) = Ok false ->
  fst (script P fuel d) = ModuleCheckFailed
  /\ forall ev, In ev (trace (snd (script P fuel d))) -> identifying ev.
Proof.
  intros Hfailed. unfold script, startup, bind.
  destruct (check_identifies D P (initial P d) I) as (new & Htr & Hok & _).
  destruct (check_dcp405_modules D P (initial P d)) as [[passed|e] s1];
    simpl in Hfailed; [|discriminate Hfailed].
  inversion Hfailed; subst passed. simpl in Htr. cbn [negb].
  unfold print, ret. settle. split; [reflexivity|].
  intros ev Hin. unfold record in Hin. settle. cbn [trace] in Hin.
  rewrite Htr in Hin. rewrite Forall_forall in Hok.
  repeat (apply in_app_or in Hin; destruct Hin as [Hin|Hin]);
    try (destruct Hin as [Hin|Hin]; [subst ev; exact I|]);
    try (now apply Hok);
    try (now elim Hin).
Qed.

Lemma failed_module_check_ends_script_witness :
  fst (script foreign 5 tt) = ModuleCheckFailed.
Proof.
  apply (failed_module_check_ends_script unit foreign 5 tt).
  reflexivity.
Defined.

(** *** The current-limit prompt (lines 155-164) *)

(** A bench on which the current limit is asked for and [entered] comes
    back, and the offset prompt, asked next, gets the same answer. *)
Definition limit_entry (entered : res value) : bench :=
  {| source := [Ok (Num 5)];
     actions := [Ok (VStr "config_current_limit")];
     entries := [entered];
     clock := 0%Z;
     step := 500%Z |}.

(** X18: the outcomes of the current-limit prompt.  A cancelled prompt
    changes nothing and sends nothing more.  A number becomes the
    session's current limit before anything is sent; then channel 2 is
    selected and, unless that fails, CURR with the number follows.  A
    failed prompt and an entry that [float()] refuses leave the limit as
    it was and raise: unlike the offset prompt, this handler has no
    [try]. *)
Theorem limit_prompt_outcomes (D : Type) (P : platform D) (s : state D)
        (answer : res value) (d1 : D) :
  scpi_reply P (device s) (limit_prompt (current_limit s)) = (answer, d1) ->
  let r := configCurrentLimit P s in
  let asked :=
    [EPrint [[Lit "Config Current Limit"]];
     EScpi (limit_prompt (current_limit s)) answer] in
  voltage_offset (snd r) = voltage_offset s
  /\ running (snd r) = running s
  /\ match answer with
     | Raise e =>
         fst r = Raise e /\ current_limit (snd r) = current_limit s
         /\ since s (snd r) = asked
     | Ok VNone =>
         fst r = Ok tt /\ current_limit (snd r) = current_limit s
         /\ since s (snd r) = asked
     | Ok entered =>
         match float_value P entered with
         | Raise e =>
             fst r = Raise e /\ current_limit (snd r) = current_limit s
             /\ since s (snd r) = asked
         | Ok limit =>
             current_limit (snd r) = limit
             /\ exists r1 rest,
                  since s (snd r)
                  = asked ++ EScpi [Lit "INST:NSEL 2"] r1 :: rest
                  /\ forall a, r1 = Ok a ->
                       exists r2 rest',
                         rest = EScpi [Lit "CURR "; ShowFloat limit] r2 :: rest'
         end
     end.
Proof.
  intros Hprompt r asked. subst r asked.
  unfold configCurrentLimit. unfold_script. settle. rewrite Hprompt.
  destruct answer as [entered|e]; settle.
  - destruct entered; cbn [is_none];
      try (destruct (float_value P _) as [limit|e] eqn:Hfloat; settle);
      try (repeat next_answer);
      (split; [reflexivity|]); (split; [reflexivity|]);
      try (split; [reflexivity|]);
      try (split; [reflexivity|]);
      try (erewrite since_app
            by (settle; rewrite <- ?app_assoc; simpl; reflexivity);
           reflexivity);
      eexists; eexists;
      (erewrite since_app
        by (settle; rewrite <- ?app_assoc; simpl; reflexivity));
      (split; [reflexivity|]);
      intros a' Ha'; try discriminate Ha'; eexists; eexists; reflexivity.
  - split; [reflexivity|]. split; [reflexivity|].
    split; [reflexivity|]. split; [reflexivity|].
    erewrite since_app by (settle; rewrite <- ?app_assoc; simpl; reflexivity).
    reflexivity.
Qed.

Lemma limit_prompt_outcomes_witness :
  current_limit
    (snd (configCurrentLimit sim
            (session false (1 # 2) 0 (limit_entry (Ok (VFloat (Num 2)))))))
  = Num 2.
Proof.
  destruct (limit_prompt_outcomes bench sim
              (session false (1 # 2) 0 (limit_entry (Ok (VFloat (Num 2)))))
              (Ok (VFloat (Num 2)))
              {| source := [Ok (Num 5)];
                 actions := [Ok (VStr "config_current_limit")];
                 entries := [];
                 clock := 0%Z;
                 step := 500%Z |}
              eq_refl)
    as (_ & _ & Hlimit).
  exact (proj1 Hlimit).
Defined.

(** X19: an entry of the current-limit prompt that [float()] refuses ends
    the loop: the ValueError reaches the loop's handler in the same turn,
    is printed as the loop's error and the loop is left, the limit being
    what it was.  The same entry in the offset prompt is caught by that
    handler, which returns normally with the offset as it was. *)
Theorem refused_limit_entry_ends_loop (D : Type) (P : platform D)
        (s : state D) (entered : value) (e : exn) :
  is_none entered = false ->
  float_value P entered = Raise e ->
  (forall now dT dA d1,
      ticks_reply P (device s) = (now, dT) ->
      scpi_reply P dT
        (action_query (Z.max 10 (ticks_diff (ticks_add (t s) 500) now)))
      = (Ok (VStr "config_current_limit"), dA) ->
      scpi_reply P dA (limit_prompt (current_limit s)) = (Ok entered, d1) ->
      fst (loop_iteration P s) = Break
      /\ current_limit (snd (loop_iteration P s)) = current_limit s
      /\ exists pre, trace (snd (loop_iteration P s)) = pre ++ [loop_error e])
  /\ (forall u dU d2,
         getU_reply P (device s) 1 = (Ok u, dU) ->
         scpi_reply P dU
           (offset_prompt (fneg u) (fsub (round P) (Num 40) u)
                          (voltage_offset s))
         = (Ok entered, d2) ->
         fst (configVoltageOffset P s) = Ok tt
         /\ voltage_offset (snd (configVoltageOffset P s)) = voltage_offset s
         /\ exists pre,
              trace (snd (configVoltageOffset P s))
              = pre ++ [caught "Offset config ERROR:" e]).
Proof.
  intros Hsome Hfloat. split.
  - intros now dT dA d1 Hticks Hquery Hprompt.
    unfold loop_iteration, loop_body. unfold_script. settle.
    rewrite Hticks. settle. rewrite Hquery. settle.
    unfold dispatch. cbn [is_text String.eqb Ascii.eqb Bool.eqb].
    unfold configCurrentLimit. unfold_script. settle.
    rewrite Hprompt. settle. rewrite Hsome, Hfloat. settle.
    split; [reflexivity|]. split; [reflexivity|].
    eexists. reflexivity.
  - intros u dU d2 HU Hprompt.
    unfold configVoltageOffset. unfold_script. settle.
    rewrite HU. settle. rewrite Hprompt. settle.
    rewrite Hsome, Hfloat. settle.
    split; [reflexivity|]. split; [reflexivity|].
    eexists. reflexivity.
Qed.

Lemma refused_limit_entry_ends_loop_witness :
  fst (loop_iteration sim
         (session true (1 # 2) 0 (limit_entry (Ok (VStr "two amps")))))
  = Break.
Proof.
  destruct (refused_limit_entry_ends_loop bench sim
              (session true (1 # 2) 0 (limit_entry (Ok (VStr "two amps"))))
              (VStr "two amps")
              (ValueError "could not convert string to float")
              eq_refl eq_refl)
    as [Hloop _].
  refine (proj1 (Hloop 0%Z _ _ _ eq_refl eq_refl eq_refl)).
Defined.

(** *** The display update (lines 73-103) *)

(** X20: a display update never raises and never changes the session.
    Either all its eleven calls succeed, it has pushed the readings and
    the two settings and returns the source voltage, the output voltage
    and the output current it read; or a call fails, nothing more is
    sent, the failure is printed and 0, 0, 0 is returned. *)
Theorem updateDisplay_outcomes (D : Type) (P : platform D) (s : state D) :
  let r := updateDisplay P s in
  globals (snd r) = globals s
  /\ loop_count (snd r) = loop_count s
  /\ t (snd r) = t s
  /\ ((exists a1 a2 a3 a4 a5 a6 a7 v1 i1 v2 i2,
          fst r = Ok (v1, v2, i2)
          /\ since s (snd r)
             = display_events a1 a2 a3 a4 a5 a6 a7 v1 i1 v2 i2
                 (voltage_offset s) (current_limit s))
      \/ (exists pre failed e,
             fst r = Ok (Num 0, Num 0, Num 0)
             /\ since s (snd r)
                = pre ++ [failed; caught "Display update ERROR:" e]
             /\ error_of failed = Some e
             /\ Forall (fun ev => error_of ev = None) pre)).
Proof. exact (updateDisplay_paths D P s). Qed.

(** X21: a display update that failed is read as 0 V at the source.
    While running, the turn goes on after the printed failure, selects
    channel 2 and commands the clamp of the offset alone. *)
Theorem failed_reading_is_read_as_zero (D : Type) (P : platform D)
        (s : state D) (t_next : Z) (pre : list event) (e : exn)
        (a : value) (d2 : D) :
  running s = true ->
  since s (snd (updateDisplay P s))
  = pre ++ [caught "Display update ERROR:" e] ->
  scpi_reply P (device (snd (updateDisplay P s))) [Lit "INST:NSEL 2"]
  = (Ok a, d2) ->
  exists r rest,
    since s (snd (refresh P t_next s))
    = pre ++ caught "Display update ERROR:" e
          :: EScpi [Lit "INST:NSEL 2"] (Ok a)
          :: ESetU 2 (follower_target (round P) (Num 0) (voltage_offset s)) r
          :: rest.
Proof.
  intros Hon Hfailed Hselect.
  destruct (updateDisplay_paths D P s)
    as (Hglobals & _ & _ & [Hgood|Hbad]).
  - destruct Hgood as (a1 & a2 & a3 & a4 & a5 & a6 & a7 & v1 & i1 & v2 & i2
                       & _ & Hevents).
    rewrite Hevents in Hfailed.
    apply (f_equal (fun l => last l (ETicks 0))) in Hfailed.
    rewrite last_last in Hfailed. discriminate Hfailed.
  - destruct Hbad as (pre' & failed & e' & Hzero & Hevents & _).
    unfold refresh, bind.
    destruct (updateDisplay P s) as [readings s1] eqn:Hupdate.
    simpl in Hzero, Hfailed, Hselect, Hglobals. subst readings.
    assert (Hon1 : running s1 = true).
    { unfold globals in Hglobals. inversion Hglobals. congruence. }
    assert (Hoffset : voltage_offset s1 = voltage_offset s).
    { unfold globals in Hglobals. now inversion Hglobals. }
    assert (Htrace : trace s1
                     = trace s ++ pre ++ [caught "Display update ERROR:" e]).
    { rewrite <- Hfailed. unfold since.
      assert (Hgrow : exists new, trace s1 = trace s ++ new).
      { destruct (tidy_grows D LoopHandler neutral _ s
                            (updateDisplay_tidy D P LoopHandler))
          as (new & Htr).
        rewrite Hupdate in Htr. now exists new. }
      destruct Hgrow as (new & ->).
      now rewrite skipn_app, skipn_all, Nat.sub_diag. }
    rewrite (follow_running D P s1 (Num 0) a d2 Hon1 Hselect).
    rewrite Hoffset.
    set (target := follower_target (round P) (Num 0) (voltage_offset s)).
    destruct (setU_reply P d2 2 target) as [[[]|e2] d3]; cbn [fst snd].
    + match goal with
      | |- context [report ?z ?z ?z ?st] =>
          destruct (tidy_grows D LoopHandler neutral _ st
                               (report_tidy D z z z))
            as (new & Htr);
            destruct (report z z z st) as [[[]|e3] s3]
      end; simpl in Htr; settle;
        exists (Ok tt), new; apply since_app;
        unfold modify, ret, set_t; settle;
        rewrite Htr, Htrace, <- !app_assoc; reflexivity.
    + exists (Raise e2), []. apply since_app. settle.
      rewrite Htrace, <- !app_assoc. reflexivity.
Qed.

Lemma failed_reading_is_read_as_zero_witness :
  exists r rest,
    since (session true (1 # 2) 0 dropout)
          (snd (refresh sim 500 (session true (1 # 2) 0 dropout)))
    = [EScpi [Lit "INST:NSEL 1"] (Ok VNone);
       EGetU 1 (Raise (DeviceError "read failed"))]
      ++ caught "Display update ERROR:" (DeviceError "read failed")
      :: EScpi [Lit "INST:NSEL 2"] (Ok VNone)
      :: ESetU 2 (follower_target binary64 (Num 0) (Num (1 # 2))) r
      :: rest.
Proof.
  apply (failed_reading_is_read_as_zero bench sim
           (session true (1 # 2) 0 dropout) 500
           [EScpi [Lit "INST:NSEL 1"] (Ok VNone);
            EGetU 1 (Raise (DeviceError "read failed"))]
           (DeviceError "read failed") VNone
           {| source := [Ok (Num 2)]; actions := []; entries := [];
              clock := 0%Z; step := 500%Z |});
    reflexivity.
Defined.

(** *** The whole script and the output *)

Section WholeScript.

Variable D : Type.
Variable P : platform D.

Lemma startup_passive : holds (stopped D) passive (startup P).
Proof.
  unfold startup, check_dcp405_modules, updateDisplay.
  repeat holds_step (stopped_stable D)
    ltac:(first [reflexivity | assumption])
    ltac:(first [exact I | discriminate]).
Qed.

Lemma cleanup_passive : holds (always D) passive (cleanup P).
Proof.
  unfold cleanup.
  repeat holds_step (always_stable D) ltac:(exact I)
    ltac:(first [exact I | discriminate]).
Qed.

End WholeScript.

(** X22: the output is driven only after the start action.  As long as
    the instrument never reports it, the whole script, from its first
    line through the module check, the start-up, any number of turns of
    the loop and the cleanup, sets no voltage and sends no OUTP 1. *)
Theorem script_drives_nothing_unless_started (D : Type) (P : platform D)
        (fuel : nat) (d : D) :
  never_answers D P "start_control" ->
  (forall ch v r, ~ In (ESetU ch v r) (trace (snd (script P fuel d))))
  /\ (forall r, ~ In (EScpi [Lit "OUTP 1"] r) (trace (snd (script P fuel d)))).
Proof.
  intros Hnever.
  assert (Hall : Forall passive (trace (snd (script P fuel d)))).
  { unfold script.
    destruct (startup_passive D P (initial P d) eq_refl)
      as (n0 & Htr0 & Hok0 & Hinv0).
    assert (Hfirst : Forall passive (trace (initial P d)))
      by (repeat constructor).
    destruct (startup P (initial P d)) as [[[|]|e] s0];
      cbn [fst snd] in Htr0, Hinv0; cbn [fst snd];
      try (rewrite Htr0; apply Forall_app; now split).
    destruct (main_loop_holds D P (stopped D) passive (stopped_stable D)
                (fun _ => I)
                (fun n r _ (H : action_query n = [Lit "OUTP 1"]) =>
                   ltac:(discriminate H))
                (fun _ => I)
                (fun action t_next Hposs =>
                   dispatch_stopped D P action t_next Hnever Hposs)
                fuel s0 Hinv0)
      as (n1 & Htr1 & Hok1 & _).
    destruct (main_loop P fuel s0) as [[|] s1];
      cbn [fst snd] in Htr1; cbn [fst snd].
    - rewrite Htr1, Htr0. repeat (apply Forall_app; split); assumption.
    - destruct (cleanup_passive D P s1 I) as (n2 & Htr2 & Hok2 & _).
      destruct (cleanup P s1) as [[[]|e] s2];
        cbn [fst snd] in Htr2; cbn [fst snd];
        rewrite Htr2, Htr1, Htr0;
        repeat (apply Forall_app; split); assumption. }
  rewrite Forall_forall in Hall. split.
  - intros ch v r Hin. exact (Hall _ Hin).
  - intros r Hin. now apply (Hall _ Hin).
Qed.

(** An instrument with two DCP405 modules on which nothing is pressed. *)
Definition untouched : platform unit :=
  {| scpi_reply := fun d cmd =>
       (if starts_like "SYST:CHAN:MODel?" cmd then Ok (VStr "DCP405")
        else Ok VNone, d);
     getU_reply := fun d _ => (Ok (Num 1), d);
     getI_reply := fun d _ => (Ok (Num 1), d);
     setU_reply := fun d _ _ => (Ok tt, d);
     ticks_reply := fun d => (0%Z, d);
     float_of_str := fun _ => None;
     round := binary64 |}.

Lemma script_drives_nothing_unless_started_witness :
  ~ In (EScpi [Lit "OUTP 1"] (Ok VNone)) (trace (snd (script untouched 3 tt))).
Proof.
  destruct (script_drives_nothing_unless_started unit untouched 3 tt)
    as [_ Hout].
  - intros d n d' H. simpl in H. discriminate H.
  - apply Hout.
Defined.

(** *** The status line (lines 240-246) *)

(** The status line: a state word followed by the offset field. *)
Definition is_status (ev : event) : bool :=
  match ev with
  | EPrint [Lit _ :: Lit sep :: _] => String.eqb sep " | Offset: "
  | _ => false
  end.

Definition silent (ev : event) : Prop := is_status ev = false.

Definition reported (new : list event) : Prop :=
  Exists (fun ev => is_status ev = true) new.

Lemma silent_not_reported (new : list event) :
  Forall silent new -> ~ reported new.
Proof.
  intros Hall Hsome. apply Exists_exists in Hsome.
  destruct Hsome as (ev & Hin & Hev). rewrite Forall_forall in Hall.
  specialize (Hall ev Hin). unfold silent in Hall. congruence.
Qed.

Section Status.

Variable D : Type.
Variable P : platform D.

Definition count_is (c : Z) (s : state D) : Prop := loop_count s = c.

Lemma count_is_stable (c : Z) : stable (count_is c).
Proof. intros s d ev Hs. exact Hs. Qed.

Lemma updateDisplay_counts (c : Z) :
  holds (count_is c) silent (updateDisplay P).
Proof.
  unfold updateDisplay.
  repeat holds_step (count_is_stable c) ltac:(assumption)
    ltac:(reflexivity).
Qed.

Lemma follow_counts (c : Z) (v : pyfloat) :
  holds (count_is c) silent (follow P v).
Proof.
  unfold follow.
  repeat holds_step (count_is_stable c) ltac:(assumption)
    ltac:(reflexivity).
Qed.

Lemma handlers_count (c : Z) :
  holds (count_is c) silent (startControl P)
  /\ holds (count_is c) silent (stopControl P)
  /\ holds (count_is c) silent (configVoltageOffset P)
  /\ holds (count_is c) silent (configCurrentLimit P).
Proof.
  unfold startControl, stopControl, configVoltageOffset, configCurrentLimit.
  repeat split;
    repeat holds_step (count_is_stable c) ltac:(assumption)
      ltac:(reflexivity).
Qed.

(** The counter and the status line of one [report]. *)
Lemma report_counts (a b c0 : pyfloat) (s : state D) :
  (0 <= loop_count s < 10)%Z ->
  exists new,
    fst (report a b c0 s) = Ok tt
    /\ trace (snd (report a b c0 s)) = trace s ++ new
    /\ loop_count (snd (report a b c0 s)) = ((loop_count s + 1) mod 10)%Z
    /\ (reported new <-> loop_count s = 9%Z).
Proof.
  intros Hc. unfold report. unfold_script. settle.
  destruct (10 <=? loop_count s + 1)%Z eqn:Hten; settle.
  - apply Z.leb_le in Hten. assert (Hnine : loop_count s = 9%Z) by lia.
    eexists. split; [reflexivity|]. split; [reflexivity|].
    split; [now rewrite Hnine|]. split; [intros _; exact Hnine|].
    intros _. constructor. reflexivity.
  - apply Z.leb_gt in Hten. exists [].
    split; [reflexivity|]. split; [now rewrite app_nil_r|].
    split; [rewrite Z.mod_small; lia|]. split.
    + intros H. inversion H.
    + lia.
Qed.

Lemma refresh_counts (t_next : Z) (s s' : state D) (f : flow) :
  refresh P t_next s = (Ok f, s') ->
  (0 <= loop_count s < 10)%Z ->
  exists new,
    trace s' = trace s ++ new
    /\ loop_count s' = ((loop_count s + 1) mod 10)%Z
    /\ (reported new <-> loop_count s = 9%Z).
Proof.
  unfold refresh, bind. intros Hrun Hc.
  destruct (updateDisplay_counts (loop_count s) s eq_refl)
    as (n1 & Htr1 & Hok1 & Hc1).
  destruct (updateDisplay P s) as [[[[ch1_v ch2_v] ch2_i]|e] s1];
    [|discriminate Hrun]. cbn [fst snd] in *.
  destruct (follow_counts (loop_count s) ch1_v s1 Hc1)
    as (n2 & Htr2 & Hok2 & Hc2).
  destruct (follow P ch1_v s1) as [[[]|e] s2]; [|discriminate Hrun].
  cbn [fst snd] in *. unfold count_is in Hc2.
  assert (Hc2' : (0 <= loop_count s2 < 10)%Z) by (rewrite Hc2; exact Hc).
  destruct (report_counts ch1_v ch2_v ch2_i s2 Hc2')
    as (n3 & Hok3 & Htr3 & Hcount & Hline).
  destruct (report ch1_v ch2_v ch2_i s2) as [[[]|e] s3];
    [|discriminate Hok3]. cbn [fst snd] in *.
  unfold modify, ret in Hrun. inversion Hrun; subst.
  unfold set_t. settle. exists (n1 ++ n2 ++ n3).
  rewrite Htr3, Htr2, Htr1, <- !app_assoc. split; [reflexivity|].
  rewrite Hcount, Hc2. split; [reflexivity|].
  unfold reported. rewrite !Exists_app. rewrite <- Hc2.
  split.
  - intros [H|[H|H]].
    + now elim (silent_not_reported n1 Hok1).
    + now elim (silent_not_reported n2 Hok2).
    + now apply Hline.
  - intros H. right; right. now apply Hline.
Qed.

(** A handler that keeps the counter and prints no status line, then the
    refresh. *)
Lemma handled_refresh_counts (h : M D unit) (t_next : Z)
      (s s' : state D) (f : flow) :
  (forall c, holds (count_is c) silent h) ->
  bind h (fun _ => refresh P t_next) s = (Ok f, s') ->
  (0 <= loop_count s < 10)%Z ->
  exists new,
    trace s' = trace s ++ new
    /\ loop_count s' = ((loop_count s + 1) mod 10)%Z
    /\ (reported new <-> loop_count s = 9%Z).
Proof.
  intros Hh Hrun Hc. unfold bind in Hrun.
  destruct (Hh (loop_count s) s eq_refl) as (n1 & Htr1 & Hok1 & Hc1).
  destruct (h s) as [[[]|e] s1]; [|discriminate Hrun].
  cbn [fst snd] in *. unfold count_is in Hc1.
  assert (Hc1' : (0 <= loop_count s1 < 10)%Z) by (rewrite Hc1; exact Hc).
  destruct (refresh_counts t_next s1 s' f Hrun Hc1')
    as (n2 & Htr2 & Hcount & Hline).
  exists (n1 ++ n2). rewrite Htr2, Htr1, <- app_assoc.
  split; [reflexivity|]. rewrite Hcount, Hc1. split; [reflexivity|].
  unfold reported. rewrite Exists_app. rewrite <- Hc1. split.
  - intros [H|H]; [now elim (silent_not_reported n1 Hok1)|now apply Hline].
  - intros H. right. now apply Hline.
Qed.

Lemma dispatch_counts (action : value) (t_next : Z) (s s' : state D) :
  dispatch P action t_next s = (Ok Next, s') ->
  (0 <= loop_count s < 10)%Z ->
  exists new,
    trace s' = trace s ++ new
    /\ loop_count s' = ((loop_count s + 1) mod 10)%Z
    /\ (reported new <-> loop_count s = 9%Z).
Proof.
  unfold dispatch.
  destruct (is_text action "start_control");
    [apply handled_refresh_counts; intros c; apply handlers_count|].
  destruct (is_text action "stop_control");
    [apply handled_refresh_counts; intros c; apply handlers_count|].
  destruct (is_text action "config_voltage_offset");
    [apply handled_refresh_counts; intros c; apply handlers_count|].
  destruct (is_text action "config_current_limit");
    [apply handled_refresh_counts; intros c; apply handlers_count|].
  destruct (is_text action "close_dialog"); [discriminate|].
  apply refresh_counts.
Qed.

Lemma loop_iteration_counts (s s' : state D) :
  loop_iteration P s = (Next, s') ->
  (0 <= loop_count s < 10)%Z ->
  loop_count s' = ((loop_count s + 1) mod 10)%Z
  /\ (reported (since s s') <-> loop_count s = 9%Z).
Proof.
  unfold loop_iteration, loop_body. unfold_script. settle.
  destruct (ticks_reply P (device s)) as [now d1]. settle.
  match goal with
  | |- context [scpi_reply P d1 ?c] =>
      destruct (scpi_reply P d1 c) as [[action|e] d2]; settle
  end; [|discriminate].
  match goal with
  | |- context [dispatch P action ?tn ?st] =>
      destruct (dispatch P action tn st) as [[[|]|e] s2] eqn:Hd
  end; intros H Hc; inversion H; subst.
  destruct (dispatch_counts _ _ _ _ Hd Hc) as (new & Htr & Hcount & Hline).
  cbn [trace loop_count] in Htr, Hcount, Hline.
  split; [exact Hcount|].
  rewrite (since_app D s s' (ETicks now :: EScpi _ (Ok action) :: new))
    by (rewrite Htr, <- !app_assoc; reflexivity).
  unfold reported in *. rewrite <- Hline. split.
  - intros Hex. inversion Hex as [? ? Hhead|? ? Htail]; subst;
      [discriminate Hhead|].
    inversion Htail as [? ? Hhead|? ? Htail']; subst;
      [discriminate Hhead|exact Htail'].
  - intros Hex. now do 2 apply Exists_cons_tl.
Qed.

End Status.

(** X23: the status counter.  In a turn that goes on, the counter, kept
    between 0 and 9, advances by one modulo 10, and the status line is
    printed in that turn exactly when the counter stood at 9; so after n
    turns that went on the counter is the initial one plus n, modulo 10. *)
Theorem status_line_every_tenth_turn (D : Type) (P : platform D) :
  (forall s : state D,
      fst (loop_iteration P s) = Next ->
      (0 <= loop_count s < 10)%Z ->
      loop_count (snd (loop_iteration P s)) = ((loop_count s + 1) mod 10)%Z
      /\ (reported (since s (snd (loop_iteration P s)))
          <-> loop_count s = 9%Z))
  /\ (forall (n : nat) (s : state D),
         fst (main_loop P n s) = Next ->
         (0 <= loop_count s < 10)%Z ->
         loop_count (snd (main_loop P n s))
         = ((loop_count s + Z.of_nat n) mod 10)%Z).
Proof.
  assert (Hturn : forall s : state D,
             fst (loop_iteration P s) = Next ->
             (0 <= loop_count s < 10)%Z ->
             loop_count (snd (loop_iteration P s))
             = ((loop_count s + 1) mod 10)%Z
             /\ (reported (since s (snd (loop_iteration P s)))
                 <-> loop_count s = 9%Z)).
  { intros s Hnext Hc. apply (loop_iteration_counts D P s); [|exact Hc].
    destruct (loop_iteration P s) as [f s']. simpl in *. now subst f. }
  split; [exact Hturn|].
  induction n as [|n IH]; intros s Hn Hc.
  - simpl. rewrite Z.add_0_r, Z.mod_small; [reflexivity|exact Hc].
  - assert (Hbefore : fst (main_loop P n s) = Next)
      by (apply (main_loop_running_before D P (S n)); [exact Hn|lia]).
    specialize (IH s Hbefore Hc).
    rewrite main_loop_snoc in Hn |- *.
    destruct (main_loop P n s) as [[|] sn]; [|discriminate Hbefore].
    cbn [fst snd] in *.
    assert (Hcn : (0 <= loop_count sn < 10)%Z)
      by (rewrite IH; apply Z.mod_pos_bound; lia).
    destruct (Hturn sn Hn Hcn) as [Hcount _].
    rewrite Hcount, IH, Zplus_mod_idemp_l. f_equal. lia.
Qed.

Lemma status_line_every_tenth_turn_witness :
  loop_count (snd (main_loop idle 25 (session true (1 # 2) 0 tt))) = 5%Z.
Proof.
  destruct (status_line_every_tenth_turn unit idle) as [_ Hcount].
  apply (Hcount 25%nat (session true (1 # 2) 0 tt)).
  - vm_compute. reflexivity.
  - simpl. lia.
Defined.

End Follower.

(** ** The browser-driven screenshot tool
       ([take_screenshot_dmm6500_githubversion.py]) *)

Module Dmm6500.

Import PyFloat.

(** What a call can raise.  The last two derive from BaseException
    alone, the others from Exception. *)
Inductive exn :=
| TimeoutException
| WebDriverException (msg : string)
| NoSuchElementException (msg : string)
| ValueError (msg : string)
| OverflowError (msg : string)
| OtherError (msg : string)
| KeyboardInterrupt
| SystemExit.

(** [isinstance(e, Exception)]. *)
Definition is_exception (e : exn) : bool :=
  match e with
  | KeyboardInterrupt => false
  | SystemExit => false
  | _ => true
  end.

Definition is_timeout (e : exn) : bool :=
  match e with
  | TimeoutException => true
  | _ => false
  end.

Definition is_webdriver_exception (e : exn) : bool :=
  match e with
  | WebDriverException _ => true
  | NoSuchElementException _ => true
  | TimeoutException => true
  | _ => false
  end.

(** A printed line, with its formatted fields kept symbolic. *)
Inductive frag :=
| Lit (s : string)
| ShowInt (z : Z)
| ShowExn (e : exn)
| Newline
| Traceback (e : exn).          (* traceback.print_exc() *)

Definition line := list frag.

(** What the browser, the instrument's web page and the file system do to
    one run.  A field of type [exn + A] is the result of one call. *)
Record world := {
  timestamp : string;                     (* datetime.now().strftime(...) *)
  new_driver : option exn;                (* webdriver.Chrome / Firefox / Edge *)
  get_page : option exn;                  (* driver.get(auth_url) *)
  wait_canvas : option exn;               (* wait.until(presence of DisplayCanvas) *)
  asleep : option exn;                    (* what ends time.sleep(wait_time) early *)
  find_bumper : option exn;               (* find_element(By.ID, "bumper") *)
  find_contentWrapper : option exn;       (* find_element(By.ID, "contentWrapper") *)
  get_screenshot_as_png : exn + list byte;
  set_window_size : option exn;
  settled : option exn;                   (* what ends time.sleep(0.5) early *)
  screenshot_as_png : exn + list byte;    (* of the element found *)
  canvas_data_url : exn + string;         (* execute_script(... toDataURL ...) *)
  b64decode : string -> exn + list byte;
  open_file : option exn;                 (* open(filename, 'wb') *)
  quit : option exn                       (* driver.quit() *)
}.

Record outcome := {
  result : exn + bool;           (* the value returned, or the exception that left *)
  console : list line;
  visited : option string;       (* the address given to driver.get *)
  held : option (list byte);     (* image_data, when it was assigned *)
  written : option (string * list byte);
  quits : nat                    (* calls of driver.quit() *)
}.

Definition lower_ascii (c : ascii) : ascii :=
  let n := nat_of_ascii c in
  if (65 <=? n)%nat && (n <=? 90)%nat then ascii_of_nat (n + 32) else c.

Fixpoint lower (s : string) : string :=
  match s with
  | EmptyString => EmptyString
  | String c rest => String (lower_ascii c) (lower rest)
  end.

(** The text after the first comma: [s.split(',', 1)[1]]. *)
Fixpoint after_comma (s : string) : option string :=
  match s with
  | EmptyString => None
  | String c rest => if Ascii.eqb c ","%char then Some rest else after_comma rest
  end.

(** [time.sleep(secs)] of CPython: the argument is converted to a count
    of nanoseconds in 64 bits, which a NaN, an infinity or more than
    about 292 years do not fit, and is then refused when negative. *)
Definition sleep_refused (secs : pyfloat) : option exn :=
  match secs with
  | NaN => Some (ValueError "Invalid value NaN (not a number)")
  | Inf _ =>
      Some (OverflowError "timestamp too large to convert to C _PyTime_t")
  | Num q =>
      if Qle_bool (inject_Z (2 ^ 63)) (Qabs q * inject_Z (10 ^ 9))%Q then
        Some (OverflowError "timestamp too large to convert to C _PyTime_t")
      else if Qltb q 0%Q then
        Some (ValueError "sleep length must be non-negative")
      else None
  end.

(** The sleep itself returns, unless something ends it early. *)
Definition time_sleep (secs : pyfloat) (interrupted : option exn)
  : option exn :=
  match sleep_refused secs with
  | Some e => Some e
  | None => interrupted
  end.

(** Lines 47-84.  [inr None] is the [None] returned after a
    WebDriverException; another exception leaves the function. *)
Definition create_driver (browser : string) (w : world)
  : (exn + option unit) * list line :=
  let name := lower browser in
  if String.eqb name "chrome" || String.eqb name "firefox"
     || String.eqb name "edge" then
    match new_driver w with
    | None => (inr (Some tt), [])
    | Some e =>
        if is_webdriver_exception e then
          (inr None,
           [[Lit "ERROR: Could not create "; Lit browser; Lit " WebDriver"];
            [Lit "Details: "; ShowExn e];
            [Newline; Lit "Make sure you have the WebDriver installed:"];
            [Lit "  Chrome:   chromedriver in PATH"];
            [Lit "  Firefox:  geckodriver in PATH"];
            [Lit "  Edge:     msedgedriver in PATH"]])
        else (inl e, [])
    end
  else (inl (ValueError ("Unsupported browser: " ++ browser)), []).

(** What the [try] body of [take_screenshot] comes to: a returned value
    or an exception for the [except] clauses, with the lines printed and
    the file written so far. *)
Record attempt := {
  ended : exn + bool;
  printed : list line;
  image : option (list byte);
  saved : option (string * list byte)
}.

Definition stop (r : exn + bool) (out : list line) : attempt :=
  {| ended := r; printed := out; image := None; saved := None |}.

(** Lines 159-167. *)
Definition save (filename : string) (fullpage : bool) (image_data : list byte)
           (out : list line) (w : world) : attempt :=
  match open_file w with
  | Some e =>
      {| ended := inl e; printed := out; image := Some image_data;
         saved := None |}
  | None =>
      {| ended := inr true;
         printed :=
           out ++ [[Lit "Screenshot saved to: "; Lit filename];
                   [Lit "Image size: "; ShowInt (Z.of_nat (List.length image_data));
                    Lit " bytes"];
                   [Lit "Format: PNG"];
                   [Lit "Mode: ";
                    Lit (if fullpage then "Full page" else "Canvas only")]];
         image := Some image_data;
         saved := Some (filename, image_data) |}
  end.

(** Lines 124-157: the image, or the early end of the attempt. *)
Definition capture (filename : string) (fullpage : bool) (out : list line)
           (w : world) : attempt :=
  if fullpage then
    let found :=
      match find_bumper w with
      | None => true
      | Some _ =>
          match find_contentWrapper w with
          | None => true
          | Some _ => false
          end
      end in
    if found then
      match set_window_size w with
      | Some e => stop (inl e) out
      | None =>
          match time_sleep (Num (1 # 2)%Q) (settled w) with   (* line 140 *)
          | Some e => stop (inl e) out
          | None =>
              match screenshot_as_png w with
              | inl e => stop (inl e) out
              | inr image_data => save filename fullpage image_data out w
              end
          end
      end
    else
      match get_screenshot_as_png w with
      | inl e => stop (inl e) out
      | inr image_data =>                            (* lines 135-136 *)
          {| ended := inr true; printed := out; image := Some image_data;
             saved := None |}
      end
  else
    match canvas_data_url w with
    | inl e => stop (inl e) out
    | inr url =>
        if negb (String.prefix "data:image/png;base64," url) then
          stop (inr false)
               (out ++ [[Lit "ERROR: Could not extract image data from canvas"]])
        else
          match after_comma url with
          | None => stop (inl (OtherError "list index out of range")) out
          | Some base64_data =>
              match b64decode w base64_data with
              | inl e => stop (inl e) out
              | inr image_data => save filename fullpage image_data out w
              end
          end
    end.

(** Lines 86-182.  [except TimeoutException] and [except Exception]
    let a KeyboardInterrupt or a SystemExit through; the [finally] clause
    runs in every case, and what [driver.quit()] raises there replaces
    the value or the exception on its way out. *)
Definition take_screenshot (filename : option string)
           (ip username password browser : string)
           (wait_time : pyfloat) (fullpage : bool) (w : world) : outcome :=
  let filename :=
    match filename with
    | Some f => f
    | None => ("dmm6500_screenshot_" ++ timestamp w ++ ".png")%string
    end in
  let auth_url :=
    ("http://" ++ username ++ ":" ++ password ++ "@" ++ ip
     ++ "/front_panel.html")%string in
  let out := [[Lit "Connecting to DMM6500 at "; Lit ip; Lit "..."]] in
  let '(created, lines) := create_driver browser w in
  let out := out ++ lines in
  let body : attempt * bool :=            (* the attempt, and whether a driver exists *)
    match created with
    | inl e => (stop (inl e) out, false)
    | inr None => (stop (inr false) out, false)
    | inr (Some _) =>
        let out := out ++ [[Lit "Loading web interface..."]] in
        match get_page w with
        | Some e => (stop (inl e) out, true)
        | None =>
            let out := out ++ [[Lit "Waiting for display canvas to load..."]] in
            match wait_canvas w with
            | Some e => (stop (inl e) out, true)
            | None =>
                match time_sleep wait_time (asleep w) with   (* line 119 *)
                | Some e => (stop (inl e) out, true)
                | None =>
                    let out := out ++ [[Lit "Capturing screenshot..."]] in
                    (capture filename fullpage out w, true)
                end
            end
        end
    end in
  let '(tried, has_driver) := body in
  let handled : (exn + bool) * list line :=
    match ended tried with
    | inr b => (inr b, printed tried)
    | inl e =>
        if is_timeout e then
          (inr false,
           printed tried
           ++ [[Lit "ERROR: Timeout waiting for page elements"];
               [Lit "The web interface may not be responding correctly"]])
        else if is_exception e then
          (inr false,
           printed tried ++ [[Lit "ERROR: "; ShowExn e]; [Traceback e]])
        else (inl e, printed tried)
    end in
  let '(leaving, out) := handled in
  if has_driver then
    {| result := match quit w with
                 | None => leaving
                 | Some e => inl e
                 end;
       console := out;
       visited := Some auth_url;
       held := image tried;
       written := saved tried;
       quits := 1 |}
  else
    {| result := leaving; console := out; visited := None;
       held := image tried; written := saved tried; quits := 0 |}.

(** Line 230: [sys.exit(0 if success else 1)]; an Exception that leaves
    [take_screenshot] ends the process, after its traceback, with status
    1.  The status after a KeyboardInterrupt or a SystemExit is the
    interpreter's and is not given here. *)
Definition exit_status (o : outcome) : option Z :=
  match result o with
  | inr true => Some 0
  | inr false => Some 1
  | inl e => if is_exception e then Some 1 else None
  end.

(** *** The full-page fallback *)

(** A page without the two panel elements: both lookups raise. *)
Definition bare_page (page : list byte) : world :=
  {| timestamp := "20251005_120000";
     new_driver := None;
     get_page := None;
     wait_canvas := None;
     asleep := None;
     find_bumper := Some (NoSuchElementException "bumper");
     find_contentWrapper := Some (NoSuchElementException "contentWrapper");
     get_screenshot_as_png := inr page;
     set_window_size := None;
     settled := None;
     screenshot_as_png := inl (OtherError "no element");
     canvas_data_url := inl (OtherError "not asked");
     b64decode := fun _ => inl (OtherError "not asked");
     open_file := None;
     quit := None |}.

(** The sleep after the resize is asked for half a second, which is
    never refused. *)
Lemma time_sleep_half (interrupted : option exn) :
  time_sleep (Num (1 # 2)%Q) interrupted = interrupted.
Proof. reflexivity. Qed.

(** A wait from 0 s up to a century is slept through. *)
Lemma time_sleep_accepts (q : Q) :
  (0 <= q)%Q -> (q <= 3155760000)%Q -> time_sleep (Num q) None = None.
Proof.
  intros Hlo Hhi. unfold time_sleep, sleep_refused.
  destruct (Qle_bool (inject_Z (2 ^ 63)) (Qabs q * inject_Z (10 ^ 9))%Q)
    eqn:Ebig.
  - apply Qle_bool_iff in Ebig. rewrite Qabs_pos in Ebig by exact Hlo.
    exfalso. revert Ebig.
    change (inject_Z (2 ^ 63)) with (9223372036854775808 # 1)%Q.
    change (inject_Z (10 ^ 9)) with (1000000000 # 1)%Q.
    intros Ebig. lra.
  - destruct (Qltb q 0%Q) eqn:Eneg; [|reflexivity].
    apply Qltb_lt in Eneg. lra.
Qed.

(** The wait is checked by [time.sleep] inside the [try]: a negative one,
    which the command line accepts, is an error that ends the run with
    False and no file. *)
Example negative_wait_is_an_error :
  result (take_screenshot None "192.168.0.1" "admin" "admin" "chrome"
            (Num (- (1))%Q) true (bare_page [x89]))
  = inr false
  /\ written (take_screenshot None "192.168.0.1" "admin" "admin" "chrome"
                (Num (- (1))%Q) true (bare_page [x89]))
     = None
  /\ last (console (take_screenshot None "192.168.0.1" "admin" "admin"
                      "chrome" (Num (- (1))%Q) true (bare_page [x89])))
          []
     = [Traceback (ValueError "sleep length must be non-negative")].
Proof. vm_compute. repeat split. Qed.

(** C10: in full-page mode, once the driver exists, the page and its
    canvas have loaded and the wait of [wait_time] seconds is over, if
    neither the bumper nor the contentWrapper element is found and the
    full-page capture succeeds, the function holds the capture in
    [image_data], writes no file, quits the driver and returns True, so
    the process exits with status 0. *)
Theorem fullpage_fallback_writes_nothing
        (filename : option string) (ip username password browser : string)
        (wait_time : pyfloat) (w : world) (e1 e2 : exn) (page : list byte) :
  fst (create_driver browser w) = inr (Some tt) ->
  get_page w = None ->
  wait_canvas w = None ->
  time_sleep wait_time (asleep w) = None ->
  find_bumper w = Some e1 ->
  find_contentWrapper w = Some e2 ->
  get_screenshot_as_png w = inr page ->
  quit w = None ->
  let o :=
    take_screenshot filename ip username password browser wait_time true w in
  result o = inr true
  /\ held o = Some page
  /\ written o = None
  /\ quits o = 1%nat
  /\ exit_status o = Some 0.
Proof.
  intros Hdriver Hget Hwait Hsleep Hbumper Hwrapper Hpage Hquit o.
  subst o. unfold exit_status, take_screenshot.
  destruct (create_driver browser w) as [created lines]. simpl in Hdriver.
  subst created. rewrite Hget, Hwait, Hsleep. unfold capture.
  rewrite Hbumper, Hwrapper, Hpage. simpl. rewrite Hquit.
  repeat split.
Qed.

(** C10 on a bare page, with the default wait of 3 s. *)
Lemma fullpage_fallback_writes_nothing_witness :
  result (take_screenshot None "192.168.0.1" "admin" "admin" "chrome"
            (Num 3) true (bare_page [x89; "P"%byte; "N"%byte; "G"%byte]))
  = inr true
  /\ written (take_screenshot None "192.168.0.1" "admin" "admin" "chrome"
                (Num 3) true
                (bare_page [x89; "P"%byte; "N"%byte; "G"%byte]))
     = None.
Proof.
  destruct (fullpage_fallback_writes_nothing
              None "192.168.0.1" "admin" "admin" "chrome" (Num 3)
              (bare_page [x89; "P"%byte; "N"%byte; "G"%byte])
              (NoSuchElementException "bumper")
              (NoSuchElementException "contentWrapper")
              [x89; "P"%byte; "N"%byte; "G"%byte]
              eq_refl eq_refl eq_refl eq_refl eq_refl eq_refl eq_refl eq_refl)
    as (Hret & _ & Hfile & _).
  split; assumption.
Defined.

(** *** Further properties of the tool *)

(** The file name the run writes to. *)
Definition target_name (filename : option string) (w : world) : string :=
  match filename with
  | Some f => f
  | None => ("dmm6500_screenshot_" ++ timestamp w ++ ".png")%string
  end.


(** The attempt of a run whose driver exists always has a driver to
    quit. *)
Lemma body_has_driver (filename : string) (wait_time : pyfloat)
      (fullpage : bool) (out : list line) (w : world)
      (tried : attempt) (has : bool) :
  match get_page w with
  | Some e => (stop (inl e) out, true)
  | None =>
      match wait_canvas w with
      | Some e =>
          (stop (inl e)
                (out ++ [[Lit "Waiting for display canvas to load..."]]),
           true)
      | None =>
          match time_sleep wait_time (asleep w) with
          | Some e =>
              (stop (inl e)
                    (out ++ [[Lit "Waiting for display canvas to load..."]]),
               true)
          | None =>
              (capture filename fullpage
                       ((out ++ [[Lit "Waiting for display canvas to load..."]])
                        ++ [[Lit "Capturing screenshot..."]]) w,
               true)
          end
      end
  end = (tried, has) ->
  has = true
  /\ forall x,
       saved tried = Some x ->
       exists out', tried = capture filename fullpage out' w.
Proof.
  destruct (get_page w); [|destruct (wait_canvas w);
                           [|destruct (time_sleep wait_time (asleep w))]];
    intros H; inversion H; subst; (split; [reflexivity|]);
    intros x Hx; try discriminate Hx.
  eexists. reflexivity.
Qed.

(** X7: the driver is quit exactly once whenever it was created, whatever
    happens afterwards; when it could not be created (unsupported browser
    name, WebDriverException or another exception of the constructor)
    nothing is quit, nothing is loaded or written and the function
    returns False, unless what the constructor raised is no Exception (a
    KeyboardInterrupt, a SystemExit), which then leaves the function. *)
Theorem driver_quit_exactly_once (filename : option string)
        (ip username password browser : string) (wait_time : pyfloat)
        (fullpage : bool) (w : world) :
  let o :=
    take_screenshot filename ip username password browser wait_time
                    fullpage w in
  (fst (create_driver browser w) = inr (Some tt) ->
   quits o = 1%nat /\ visited o <> None)
  /\ (fst (create_driver browser w) <> inr (Some tt) ->
      quits o = 0%nat /\ visited o = None
      /\ written o = None /\ held o = None
      /\ result o
         = match fst (create_driver browser w) with
           | inl e => if is_exception e then inr false else inl e
           | inr _ => inr false
           end).
Proof.
  unfold take_screenshot. cbv zeta.
  destruct (create_driver browser w) as [[e|[[]|]] lines]; cbv beta iota zeta.
  - split; [discriminate|]. intros _. unfold stop. cbn [ended printed image saved fst].
    destruct e; repeat split.
  - split; [|intros H; now elim H]. intros _.
    match goal with
    | |- context [let '(_, _) := ?body in _] => destruct body as [tried has] eqn:Hbody
    end.
    apply body_has_driver in Hbody. destruct Hbody as [-> _].
    destruct (ended tried) as [e|b];
      [destruct (is_timeout e); [|destruct (is_exception e)]|];
      cbn; split; reflexivity || discriminate.
  - split; [discriminate|]. intros _. repeat split.
Qed.










(** Every exception the calls of the [try] body raise is an Exception. *)
Definition raises_exceptions_only (w : world) : Prop :=
  (forall e, new_driver w = Some e -> is_exception e = true)
  /\ (forall e, get_page w = Some e -> is_exception e = true)
  /\ (forall e, wait_canvas w = Some e -> is_exception e = true)
  /\ (forall e, asleep w = Some e -> is_exception e = true)
  /\ (forall e, get_screenshot_as_png w = inl e -> is_exception e = true)
  /\ (forall e, set_window_size w = Some e -> is_exception e = true)
  /\ (forall e, settled w = Some e -> is_exception e = true)
  /\ (forall e, screenshot_as_png w = inl e -> is_exception e = true)
  /\ (forall e, canvas_data_url w = inl e -> is_exception e = true)
  /\ (forall s e, b64decode w s = inl e -> is_exception e = true)
  /\ (forall e, open_file w = Some e -> is_exception e = true).

(** What [time.sleep] itself refuses is an Exception. *)
Lemma sleep_refused_exception (secs : pyfloat) (e : exn) :
  sleep_refused secs = Some e -> is_exception e = true.
Proof.
  unfold sleep_refused. destruct secs as [q| |].
  - destruct (Qle_bool _ _); [|destruct (Qltb q 0%Q)];
      intros H; inversion H; reflexivity.
  - intros H; inversion H; reflexivity.
  - intros H; inversion H; reflexivity.
Qed.

Lemma capture_raises (n : string) (fullpage : bool) (out : list line)
      (w : world) (e : exn) :
  raises_exceptions_only w ->
  ended (capture n fullpage out w) = inl e -> is_exception e = true.
Proof.
  intros (_ & _ & _ & _ & Hpage & Hsize & Hsettled & Hpng & Hurl & Hb64
          & Hopen).
  unfold capture, save, stop. rewrite time_sleep_half.
  repeat match goal with
         | |- context [match ?c with _ => _ end] =>
             destruct c eqn:?; simpl; try discriminate
         end;
    intros H; inversion H; subst; eauto.
Qed.

(** X11: an exception leaves [take_screenshot] only when [driver.quit()]
    raises it in the [finally] clause, or when it is no Exception (a
    KeyboardInterrupt, a SystemExit), which no [except] clause here
    catches: interrupted during the wait, the function quits the driver
    and lets the interrupt out.  When the calls of the body raise
    Exceptions only and [driver.quit()] does not raise, the function
    returns True or False.  A timeout of the canvas wait prints its two
    lines and gives False. *)
Theorem exceptions_leave_by_quit_or_interrupt (filename : option string)
        (ip username password browser : string) (wait_time : pyfloat)
        (fullpage : bool) (w : world) :
  let o :=
    take_screenshot filename ip username password browser wait_time
                    fullpage w in
  (forall e, result o = inl e ->
             (quit w = Some e /\ fst (create_driver browser w) = inr (Some tt))
             \/ is_exception e = false)
  /\ (raises_exceptions_only w ->
      quit w = None \/ fst (create_driver browser w) <> inr (Some tt) ->
      exists b, result o = inr b)
  /\ (fst (create_driver browser w) = inr (Some tt) ->
      get_page w = None -> wait_canvas w = None ->
      sleep_refused wait_time = None ->
      asleep w = Some KeyboardInterrupt ->
      quit w = None ->
      result o = inl KeyboardInterrupt
      /\ quits o = 1%nat /\ written o = None)
  /\ (fst (create_driver browser w) = inr (Some tt) ->
      get_page w = None -> wait_canvas w = Some TimeoutException ->
      quit w = None ->
      result o = inr false
      /\ written o = None
      /\ exists out,
           console o
           = out ++ [[Lit "ERROR: Timeout waiting for page elements"];
                     [Lit "The web interface may not be responding correctly"]]).
Proof.
  unfold take_screenshot. cbv zeta.
  destruct (create_driver browser w) as [[e|[[]|]] lines] eqn:Hcreate;
    cbv beta iota zeta; cbn [fst].
  - split; [|split; [|split; discriminate]].
    + intros e'. unfold stop. cbn [ended printed image saved].
      destruct (is_timeout e) eqn:Ht; [discriminate|].
      destruct (is_exception e) eqn:He; [discriminate|].
      cbn [result]. intros H. inversion H; subst. now right.
    + intros Hw _. unfold stop. cbn [ended printed image saved].
      assert (He : is_exception e = true).
      { destruct Hw as (Hnew & _). revert Hcreate. unfold create_driver.
        destruct (_ || _); [|intros H; inversion H; reflexivity].
        destruct (new_driver w) as [e0|] eqn:Hn; [|discriminate].
        destruct (is_webdriver_exception e0); [discriminate|].
        intros H; inversion H; subst. now apply Hnew. }
      rewrite He. destruct (is_timeout e); eexists; reflexivity.
  - match goal with
    | |- context [let '(_, _) := ?body in _] =>
        destruct body as [tried has] eqn:Hbody
    end.
    pose proof Hbody as Hshape.
    apply body_has_driver in Hshape. destruct Hshape as [-> _].
    split; [|split; [|split]].
    + intros e'.
      destruct (ended tried) as [e0|b];
        [destruct (is_timeout e0); [|destruct (is_exception e0) eqn:He0]|];
        cbn [result]; destruct (quit w); intros H; inversion H; subst; auto.
    + intros Hw [Hquit|Hno]; [|now elim Hno]. rewrite Hquit.
      destruct (ended tried) as [e0|b] eqn:Hend;
        [destruct (is_timeout e0); [|destruct (is_exception e0) eqn:He0]|];
        cbn [result]; try (eexists; reflexivity).
      exfalso.
      assert (is_exception e0 = true); [|congruence].
      pose proof Hw as (_ & Hget & Hwait & Hasleep & _).
      revert Hbody Hend.
      destruct (get_page w) as [e1|] eqn:E1.
      { intros H; inversion H; subst. cbn. intros H'; inversion H'; subst.
        now apply Hget. }
      destruct (wait_canvas w) as [e2|] eqn:E2.
      { intros H; inversion H; subst. cbn. intros H'; inversion H'; subst.
        now apply Hwait. }
      destruct (time_sleep wait_time (asleep w)) as [e3|] eqn:E3.
      { intros H; inversion H; subst. cbn. intros H'; inversion H'; subst.
        unfold time_sleep in E3.
        destruct (sleep_refused wait_time) as [e4|] eqn:E4.
        - inversion E3; subst. now apply (sleep_refused_exception wait_time).
        - now apply Hasleep. }
      intros H; inversion H; subst.
      apply capture_raises. exact Hw.
    + intros _ Hget Hwait Hok Hint Hquit.
      unfold time_sleep in Hbody. rewrite Hget, Hwait, Hok, Hint in Hbody.
      inversion Hbody; subst. unfold stop.
      cbn [ended printed image saved is_timeout is_exception result written
           quits].
      rewrite Hquit. repeat split.
    + intros _ Hget Hwait Hquit. rewrite Hget, Hwait in Hbody.
      inversion Hbody; subst. unfold stop.
      cbn [ended printed image saved is_timeout result written console].
      rewrite Hquit. repeat split. eexists. reflexivity.
  - split; [discriminate|]. split; [|split; discriminate].
    intros _ _. eexists. reflexivity.
Qed.

End Dmm6500.
